(** * qbittorrent-mcp: the search acquisition protocol of [api.py]

    A shallow embedding of [search_torrents_api] (and of
    [login_to_qbittorrent], which it calls): log in, start a remote search
    job, poll it under a budget of [SEARCH_MAX_RETRIES] attempts, then
    filter by size, rank by seeders and keep the first ten results.

    The remote service is a [world]: what it answers to the login request,
    to the search start request and to the n-th poll.  The coroutine is a
    total function from a world to the list of I/O events it performs and
    the way it ends: a returned dictionary or an exception that escapes. *)

From Stdlib Require Import List ZArith QArith Bool Arith Lia String Ascii.
From Stdlib Require Import Sorted Permutation DecimalString.
Import ListNotations.
Local Close Scope Q_scope.
Local Open Scope string_scope.
Local Open Scope list_scope.

(** ** Python values the function handles *)

Module Py.

(** A Python [float] as far as [<=] against an [int] sees it: Python
    compares an int with a float exactly, so a finite float is the rational
    it denotes. *)
Inductive float : Type :=
| Finite (q : Q)
| PosInf
| NegInf
| NaN.

(** [z <= f] for an int [z] and a float [f]. *)
Definition int_le_float (z : Z) (f : float) : bool :=
  match f with
  | Finite q => Qle_bool (inject_Z z) q
  | PosInf => true
  | NegInf => false
  | NaN => false
  end.

(** [str(n)] for an int. *)
Definition str_int (z : Z) : string :=
  NilZero.string_of_int (Z.to_int z).

(** [sorted(l, key=key, reverse=True)]: the builtin is a stable sort, and
    [reverse=True] keeps elements with equal keys in their original order.
    [insert_desc x l] puts [x] in front of the first element whose key does
    not exceed its own. *)
Section Sorted.
Context {A : Type} (key : A -> Z).

Fixpoint insert_desc (x : A) (l : list A) : list A :=
  match l with
  | [] => [x]
  | y :: l' =>
      if (key x <? key y)%Z then y :: insert_desc x l' else x :: y :: l'
  end.

Fixpoint sorted_reverse (l : list A) : list A :=
  match l with
  | [] => []
  | x :: l' => insert_desc x (sorted_reverse l')
  end.
End Sorted.

End Py.

(** ** Data model *)

(** The identifier of a search job, [search_result.get('id')]: an integer
    or a string. *)
Inductive job_id : Type :=
| IdInt (z : Z)
| IdStr (s : string).

(** One row of a result page, typed as the service delivers it: integers
    for [fileSize] and [nbSeeders], the two keys the function looks at
    ([None]: the key is absent); every other key is passed through. *)
Record TorrentResult : Type := {
  fileSize : option Z;
  nbSeeders : option Z;
  other_fields : list (string * string)
}.

(** Values stored in the dictionaries the function returns.
    [VSearchResult] is the dictionary [search_result] read from the answer
    to [search/start], of which the function reads the key ['id'] only. *)
Inductive value : Type :=
| VNone
| VInt (z : Z)
| VStr (s : string)
| VSearchResult (id : option job_id)
| VTorrents (l : list TorrentResult).

(** The dictionary handed to [json.dumps], keys in insertion order. *)
Definition envelope : Type := list (string * value).

Fixpoint lookup (k : string) (d : envelope) : option value :=
  match d with
  | [] => None
  | (k', v) :: d' => if String.eqb k k' then Some v else lookup k d'
  end.

(** ** Constants (api.py, lines 9-10) *)

Definition SEARCH_MAX_RETRIES : nat := 10.
Definition SEARCH_RETRY_DELAY_SECONDS : Q := 1%Q.

(** ** The remote service *)

(** What [client.post] gives: an exception of the transport, or a response
    with its status code and body. *)
Inductive reply (B : Type) : Type :=
| TransportError (msg : string)
| Response (status_code : Z) (body : B).
Arguments TransportError {B} msg.
Arguments Response {B} status_code body.

(** What reading a body as a JSON object gives: [response.json()] raises,
    or the value read is not a dictionary and [.get] raises, or the
    fields. *)
Inductive decoded (A : Type) : Type :=
| Malformed (msg : string)
| Decoded (a : A).
Arguments Malformed {A} msg.
Arguments Decoded {A} a.

Definition cookies : Type := list (string * string).

(** The body of the answer to [search/start]. *)
Record start_body : Type := {
  start_text : string;
  start_json : decoded (option job_id)
}.

(** One page of [search/results]: [results.get('status')] and
    [results.get('results', [])]. *)
Record page : Type := {
  page_status : option string;
  page_results : list TorrentResult
}.

Record poll_body : Type := {
  poll_text : string;
  poll_json : decoded page
}.

Record world : Type := {
  login_reply : reply cookies;
  start_reply : reply start_body;
  poll_reply : nat -> reply poll_body
}.

(** ** Effects: I/O events, [return] and exceptions *)

Inductive endpoint : Type :=
| AuthLogin                      (* POST {host}/api/v2/auth/login *)
| SearchStart                    (* POST {host}/api/v2/search/start *)
| SearchResults.                 (* POST {host}/api/v2/search/results *)

Inductive event : Type :=
| Post (ep : endpoint)
| Sleep (seconds : Q).

(** How a block of statements ends: it falls through with a value, it
    executes [return d], or it raises an exception whose [str] is [msg]. *)
Inductive result (A : Type) : Type :=
| Value (a : A)
| Return (d : envelope)
| Raise (msg : string).
Arguments Value {A} a.
Arguments Return {A} d.
Arguments Raise {A} msg.

(** A block: the events it performs, in order, and how it ends. *)
Definition io (A : Type) : Type := (list event * result A)%type.

Definition ret {A} (a : A) : io A := ([], Value a).

Definition bind {A B} (m : io A) (f : A -> io B) : io B :=
  match m with
  | (t, Value a) => let (t', r) := f a in (t ++ t', r)
  | (t, Return d) => (t, Return d)
  | (t, Raise msg) => (t, Raise msg)
  end.

Notation "x <- m ;; k" := (bind m (fun x => k))
  (at level 61, m at next level, right associativity).
Notation "m ;;; k" := (bind m (fun _ => k))
  (at level 61, right associativity).

Definition return_ {A} (d : envelope) : io A := ([], Return d).

(** [try: body except Exception as e: handler]. *)
Definition try_except {A} (body : io A) (handler : string -> io A) : io A :=
  match body with
  | (t, Raise msg) => let (t', r) := handler msg in (t ++ t', r)
  | _ => body
  end.

(** [await client.post(...)] against the endpoint [ep]. *)
Definition post {B} (ep : endpoint) (r : reply B) : io (Z * B) :=
  ([Post ep],
   match r with
   | TransportError msg => Raise msg
   | Response code body => Value (code, body)
   end).

(** [response.json()] followed by the [.get] calls on it. *)
Definition json {A} (d : decoded A) : io A :=
  match d with
  | Malformed msg => ([], Raise msg)
  | Decoded a => ([], Value a)
  end.

(** [await asyncio.sleep(seconds)]. *)
Definition sleep (seconds : Q) : io unit := ([Sleep seconds], Value tt).

(** ** Truth values of the tested objects *)

(** [cookies] in [if not cookies]: [None], or a cookie jar, which is false
    when it holds no cookie. *)
Definition truthy_cookies (c : option cookies) : bool :=
  match c with
  | Some (_ :: _) => true
  | _ => false
  end.

Definition truthy_id (i : option job_id) : bool :=
  match i with
  | None => false
  | Some (IdInt z) => negb (z =? 0)%Z
  | Some (IdStr s) => negb (String.eqb s "")
  end.

Definition truthy_list {A} (l : list A) : bool :=
  match l with
  | [] => false
  | _ :: _ => true
  end.

Definition is_Stopped (status : option string) : bool :=
  match status with
  | Some s => String.eqb s "Stopped"
  | None => false
  end.

Definition value_of_id (i : option job_id) : value :=
  match i with
  | Some (IdInt z) => VInt z
  | Some (IdStr s) => VStr s
  | None => VNone
  end.

Definition value_of_status (status : option string) : value :=
  match status with
  | Some s => VStr s
  | None => VNone
  end.

(** ** The error messages *)

Definition login_failure_message : string := "登录失败，无法获取SID".
Definition start_failure_message (status_code : Z) : string :=
  String.append "启动搜索失败: 状态码 " (Py.str_int status_code).
Definition missing_id_message : string := "未能获取搜索ID".
Definition poll_failure_message (status_code : Z) : string :=
  String.append "获取搜索结果失败: 状态码 " (Py.str_int status_code).
Definition timeout_message : string := "搜索超时，未能获取到结果".
Definition exception_message (e : string) : string :=
  String.append "错误: " e.

(** The dictionary returned when a poll answers with a failing status
    code. *)
Definition poll_failure (status_code : Z) (body : poll_body) : envelope :=
  [("error", VStr (poll_failure_message status_code));
   ("response", VStr (poll_text body))].

(** ** login_to_qbittorrent (api.py, lines 12-32) *)

(** One POST to the login endpoint; the cookies of the response when its
    status code is 200, [None] otherwise.  Nothing here catches what the
    POST raises. *)
Definition login_to_qbittorrent (w : world) : io (option cookies) :=
  response <- post AuthLogin (login_reply w) ;;
  if (fst response =? 200)%Z then ret (Some (snd response)) else ret None.

(** ** search_torrents_api (api.py, lines 655-801) *)

(** The loop variables [torrents] and [status]. *)
Record poll_state : Type := {
  torrents : list TorrentResult;
  status : option string
}.

(** How the [for] loop was left; the code after the loop does not see it,
    it is kept for the statements about the loop. *)
Inductive loop_exit : Type :=
| Break (attempt : nat)
| Exhausted.

(** Step 2, the [for attempt in range(SEARCH_MAX_RETRIES)] loop, over the
    attempts that remain. *)
Fixpoint poll_loop (w : world) (attempts : list nat) (st : poll_state)
  : io (poll_state * loop_exit) :=
  match attempts with
  | [] => ret (st, Exhausted)
  | attempt :: rest =>
      response <- post SearchResults (poll_reply w attempt) ;;
      if negb (fst response =? 200)%Z then
        return_ (poll_failure (fst response) (snd response))
      else
        results <- json (poll_json (snd response)) ;;
        let st' := {| torrents := page_results results;
                      status := page_status results |} in
        if is_Stopped (status st') then ret (st', Break attempt)
        else if truthy_list (torrents st') && (2 <=? attempt)%nat
        then ret (st', Break attempt)
        else
          (if (attempt <? SEARCH_MAX_RETRIES - 1)%nat
           then sleep SEARCH_RETRY_DELAY_SECONDS
           else ret tt) ;;;
          poll_loop w rest st'
  end.

(** [torrent.get('fileSize', 0)] and [x.get('nbSeeders', 0)]. *)
Definition get_fileSize (t : TorrentResult) : Z :=
  match fileSize t with Some z => z | None => 0%Z end.

Definition get_nbSeeders (t : TorrentResult) : Z :=
  match nbSeeders t with Some z => z | None => 0%Z end.

(** Steps 3 to 5.  [max_size_bytes] is the float
    [max_size_gb * 1024 * 1024 * 1024]. *)
Definition filtered_torrents (torrents : list TorrentResult)
    (max_size_bytes : Py.float) : list TorrentResult :=
  filter (fun torrent => Py.int_le_float (get_fileSize torrent) max_size_bytes)
         torrents.

Definition sorted_torrents (filtered : list TorrentResult)
  : list TorrentResult :=
  Py.sorted_reverse get_nbSeeders filtered.

Definition top_10 (sorted : list TorrentResult) : list TorrentResult :=
  firstn 10 sorted.

(** The dictionary of the last [return]. *)
Definition shape (search_id : option job_id) (pattern : string)
    (torrents : list TorrentResult) (max_size_bytes : Py.float) : envelope :=
  let filtered := filtered_torrents torrents max_size_bytes in
  [("search_id", value_of_id search_id);
   ("pattern", VStr pattern);
   ("total_results", VInt (Z.of_nat (List.length torrents)));
   ("filtered_results", VInt (Z.of_nat (List.length filtered)));
   ("results", VTorrents (top_10 (sorted_torrents filtered)))].

(** The body of the [try] block, entered once the login gave cookies. *)
Definition search_try_block (w : world) (pattern : string)
    (max_size_bytes : Py.float) : io Empty_set :=
  response <- post SearchStart (start_reply w) ;;
  if negb (fst response =? 200)%Z then
    return_ [("error", VStr (start_failure_message (fst response)));
             ("response", VStr (start_text (snd response)))]
  else
    search_id <- json (start_json (snd response)) ;;
    if negb (truthy_id search_id) then
      return_ [("error", VStr missing_id_message);
               ("response", VSearchResult search_id)]
    else
      exit <- poll_loop w (seq 0 SEARCH_MAX_RETRIES)
                {| torrents := []; status := None |} ;;
      let st := fst exit in
      if negb (truthy_list (torrents st)) && negb (is_Stopped (status st))
      then
        return_ [("error", VStr timeout_message);
                 ("search_id", value_of_id search_id);
                 ("status", value_of_status (status st))]
      else
        return_ (shape search_id pattern (torrents st) max_size_bytes).

Definition search_torrents_api (w : world) (pattern : string)
    (max_size_bytes : Py.float) : io Empty_set :=
  cookies <- login_to_qbittorrent w ;;
  if negb (truthy_cookies cookies) then
    return_ [("error", VStr login_failure_message)]
  else
    try_except (search_try_block w pattern max_size_bytes)
      (fun e => return_ [("error", VStr (exception_message e))]).

(** What the caller of the coroutine observes. *)
Inductive outcome : Type :=
| Returned (d : envelope)
| Raised (msg : string).

Definition trace {A} (m : io A) : list event := fst m.

Definition outcome_of (m : io Empty_set) : outcome :=
  match snd m with
  | Value v => match v with end
  | Return d => Returned d
  | Raise msg => Raised msg
  end.

(** Counting the events of a trace. *)
Definition is_post (ep : endpoint) (e : event) : bool :=
  match e, ep with
  | Post AuthLogin, AuthLogin => true
  | Post SearchStart, SearchStart => true
  | Post SearchResults, SearchResults => true
  | _, _ => false
  end.

Definition is_request (e : event) : bool :=
  match e with Post _ => true | Sleep _ => false end.

Definition count (p : event -> bool) (t : list event) : nat :=
  List.length (filter p t).

(** ** Replies that let the protocol go on *)

(** The login answers 200 and sets a cookie. *)
Definition login_ok (w : world) : Prop :=
  exists c, login_reply w = Response 200 c /\ c <> [].

(** The start request answers 200 with a usable identifier. *)
Definition start_ok (w : world) (search_id : option job_id) : Prop :=
  exists text,
    start_reply w =
      Response 200 {| start_text := text; start_json := Decoded search_id |}
    /\ truthy_id search_id = true.

(** The page the n-th poll delivers, when it answers 200 with a readable
    body. *)
Definition page_at (w : world) (n : nat) : option page :=
  match poll_reply w n with
  | Response code body =>
      if (code =? 200)%Z then
        match poll_json body with
        | Decoded p => Some p
        | Malformed _ => None
        end
      else None
  | TransportError _ => None
  end.

Definition state_of (p : page) : poll_state :=
  {| torrents := page_results p; status := page_status p |}.

Definition initial_state : poll_state := {| torrents := []; status := None |}.

(** ** Vocabulary of the statements *)

(** What the function returns after the loop, from the state it left. *)
Definition after_loop (search_id : option job_id) (pattern : string)
    (max_size_bytes : Py.float) (st : poll_state) : envelope :=
  if negb (truthy_list (torrents st)) && negb (is_Stopped (status st)) then
    [("error", VStr timeout_message);
     ("search_id", value_of_id search_id);
     ("status", value_of_status (status st))]
  else shape search_id pattern (torrents st) max_size_bytes.

(** The ways an iteration can go. *)
Inductive iteration (w : world) (attempt : nat) : Prop :=
| it_break (p : page) (Hp : page_at w attempt = Some p)
    (Hb : is_Stopped (page_status p)
          || truthy_list (page_results p) && (2 <=? attempt)%nat = true)
| it_continue (p : page) (Hp : page_at w attempt = Some p)
    (Hs : is_Stopped (page_status p) = false)
    (Ht : truthy_list (page_results p) && (2 <=? attempt)%nat = false)
| it_abort (Hp : page_at w attempt = None).

(** Polls separated by one delay each: the traces the loop can leave. *)
Inductive poll_trace : list event -> Prop :=
| poll_trace_nil : poll_trace []
| poll_trace_last : poll_trace [Post SearchResults]
| poll_trace_delay t :
    poll_trace (Post SearchResults :: t) ->
    poll_trace (Post SearchResults :: Sleep SEARCH_RETRY_DELAY_SECONDS
                  :: Post SearchResults :: t).

(** Every delay of the trace stands between two polls. *)
Definition delays_between_polls (t : list event) : Prop :=
  forall pre seconds post,
    t = pre ++ Sleep seconds :: post ->
    (exists pre', pre = pre' ++ [Post SearchResults])
    /\ (exists post', post = Post SearchResults :: post').

Section Order.
Context {A : Type} (key : A -> Z).

(** [a] may stand before [b] in a list descending by [key]. *)
Definition desc (a b : A) : Prop := (key b <= key a)%Z.

Definition has_key (k : Z) (x : A) : bool := (key x =? k)%Z.
End Order.

(** The number of entries of [R] whose size is at most [S], an entry
    without [fileSize] counting as one of size 0. *)
Fixpoint count_within (S : Py.float) (R : list TorrentResult) : nat :=
  match R with
  | [] => 0
  | r :: R' =>
      let size := match fileSize r with Some z => z | None => 0%Z end in
      if Py.int_le_float size S then 1 + count_within S R'
      else count_within S R'
  end.

(** The number of seeders of a row as the statements read it, apart from
    the code: the field [nbSeeders] of the row, 0 when the row has none. *)
Definition seeders_field (r : TorrentResult) : Z :=
  match r with
  | {| nbSeeders := Some n |} => n
  | {| nbSeeders := None |} => 0%Z
  end.

(** The invariant of a success envelope: the counts are ordered, the
    results are as many as the filtered rows up to ten, and they stand in
    non-increasing order of the field [nbSeeders]. *)
Definition envelope_invariant (d : envelope) : Prop :=
  exists total filtered results,
    lookup "total_results" d = Some (VInt (Z.of_nat total))
    /\ lookup "filtered_results" d = Some (VInt (Z.of_nat filtered))
    /\ lookup "results" d = Some (VTorrents results)
    /\ filtered <= total
    /\ List.length results <= Nat.min filtered 10
    /\ List.length results = Nat.min filtered 10
    /\ List.length results <= 10
    /\ StronglySorted (desc seeders_field) results.

(** ** Sample worlds *)

Definition ok_login : reply cookies := Response 200 [("SID", "abc")].

Definition ok_start : reply start_body :=
  Response 200 {| start_text := "{id: 7}";
                  start_json := Decoded (Some (IdInt 7)) |}.

Definition ok_page (st : string) (l : list TorrentResult) : reply poll_body :=
  Response 200 {| poll_text := "";
                  poll_json := Decoded {| page_status := Some st;
                                          page_results := l |} |}.

Definition row (size seeders : Z) : TorrentResult :=
  {| fileSize := Some size; nbSeeders := Some seeders; other_fields := [] |}.

Definition GiB : Z := 1073741824.

(** Every poll: still running, one row (whose seeders tell the attempt). *)
Definition world_running_nonempty : world :=
  {| login_reply := ok_login; start_reply := ok_start;
     poll_reply := fun n => ok_page "Running" [row 1 (Z.of_nat n)] |}.

(** Every poll: still running, nothing yet. *)
Definition world_running_empty : world :=
  {| login_reply := ok_login; start_reply := ok_start;
     poll_reply := fun _ => ok_page "Running" [] |}.

(** The first poll: stopped, nothing found. *)
Definition world_stopped_empty : world :=
  {| login_reply := ok_login; start_reply := ok_start;
     poll_reply := fun _ => ok_page "Stopped" [] |}.

(** The login request cannot reach the service. *)
Definition world_login_unreachable : world :=
  {| login_reply := TransportError "All connection attempts failed";
     start_reply := ok_start;
     poll_reply := fun _ => ok_page "Stopped" [] |}.

(** The start request cannot reach the service. *)
Definition world_start_unreachable : world :=
  {| login_reply := ok_login;
     start_reply := TransportError "All connection attempts failed";
     poll_reply := fun _ => ok_page "Stopped" [] |}.

(** The second poll answers 500. *)
Definition world_poll_500 : world :=
  {| login_reply := ok_login; start_reply := ok_start;
     poll_reply := fun n =>
       match n with
       | 1 => Response 500 {| poll_text := "Internal Server Error";
                              poll_json := Malformed "Expecting value" |}
       | _ => ok_page "Running" []
       end |}.

(** The rows of scenario A of the specification, delivered at once. *)
Definition scenario_A : list TorrentResult :=
  [row (1 * GiB) 5; row (10 * GiB) 50; row (2 * GiB) 1].

(** Fifteen rows of one size with 1 to 15 seeders. *)
Definition scenario_B : list TorrentResult :=
  map (fun n => row GiB (Z.of_nat n)) (seq 1 15).

(** Three rows, two of them with five seeders. *)
Definition tied_rows : list TorrentResult :=
  [{| fileSize := Some 10%Z; nbSeeders := Some 5%Z;
      other_fields := [("fileName", "first")] |};
   {| fileSize := Some 10%Z; nbSeeders := Some 9%Z;
      other_fields := [("fileName", "second")] |};
   {| fileSize := Some 10%Z; nbSeeders := Some 5%Z;
      other_fields := [("fileName", "third")] |}].

(** The first poll delivers the rows of scenario A and says 'Stopped'. *)
Definition world_scenario_A : world :=
  {| login_reply := ok_login; start_reply := ok_start;
     poll_reply := fun _ => ok_page "Stopped" scenario_A |}.

(** ** Vocabulary of the loop as a whole *)

(** The test that ends the loop at attempt [n] on the page [p]: the two
    [break] conditions. *)
Definition accepts (n : nat) (p : page) : bool :=
  is_Stopped (page_status p)
  || truthy_list (page_results p) && (2 <=? n)%nat.

(** The trace of [j] polls each followed by a delay, then a last poll. *)
Fixpoint polling (j : nat) : list event :=
  match j with
  | 0 => [Post SearchResults]
  | S j' =>
      Post SearchResults :: Sleep SEARCH_RETRY_DELAY_SECONDS :: polling j'
  end.

Definition is_sleep (e : event) : bool :=
  match e with Sleep _ => true | Post _ => false end.

(** The envelope of the timeout. *)
Definition timeout_envelope (search_id : option job_id)
    (status : option string) : envelope :=
  [("error", VStr timeout_message);
   ("search_id", value_of_id search_id);
   ("status", value_of_status status)].

(** Two polls with results while running, then nothing more. *)
Definition world_results_then_nothing : world :=
  {| login_reply := ok_login; start_reply := ok_start;
     poll_reply := fun n =>
       match n with
       | 0 | 1 => ok_page "Running" [row 1 5]
       | _ => ok_page "Running" []
       end |}.

(** Running and empty until the fifth poll, which has two rows. *)
Definition world_results_at_4 : world :=
  {| login_reply := ok_login; start_reply := ok_start;
     poll_reply := fun n =>
       match n with
       | 4 => ok_page "Running" [row 1 5; row 2 8]
       | _ => ok_page "Running" []
       end |}.

(** The start request answers 200 with the identifier 0. *)
Definition world_id_zero : world :=
  {| login_reply := ok_login;
     start_reply :=
       Response 200 {| start_text := "{id: 0}";
                       start_json := Decoded (Some (IdInt 0)) |};
     poll_reply := fun _ => ok_page "Stopped" [] |}.

(** The start request answers 409. *)
Definition world_start_409 : world :=
  {| login_reply := ok_login;
     start_reply :=
       Response 409 {| start_text := "Conflict";
                       start_json := Malformed "Expecting value" |};
     poll_reply := fun _ => ok_page "Stopped" [] |}.

(** The third poll answers 200 with a body that is not JSON. *)
Definition world_poll_garbled : world :=
  {| login_reply := ok_login; start_reply := ok_start;
     poll_reply := fun n =>
       match n with
       | 2 => Response 200 {| poll_text := "<html>";
                              poll_json := Malformed "Expecting value" |}
       | _ => ok_page "Running" []
       end |}.

(** * The commands of [api.py]

    The functions that log in, send one request and return a message, and
    [add_torrent_api], which uploads a list of files.  The headers and the
    form data of the requests, which do not bear on what the functions
    return, are left out of the events. *)

Module Cmd.

Local Open Scope string_scope.

Inductive endpoint : Type :=
| AuthLogin                      (* POST /api/v2/auth/login *)
| TorrentsDelete                 (* POST /api/v2/torrents/delete *)
| TorrentsStop                   (* POST /api/v2/torrents/stop *)
| TorrentsStart                  (* POST /api/v2/torrents/start *)
| TorrentsTrackers               (* GET  /api/v2/torrents/trackers *)
| TransferSetDownloadLimit       (* POST /api/v2/transfer/setDownloadLimit *)
| TransferSetUploadLimit         (* POST /api/v2/transfer/setUploadLimit *)
| TorrentsFilePrio               (* POST /api/v2/torrents/filePrio *)
| TorrentsSetDownloadLimit       (* POST /api/v2/torrents/setDownloadLimit *)
| TorrentsSetUploadLimit         (* POST /api/v2/torrents/setUploadLimit *)
| TorrentsAddTrackers            (* POST /api/v2/torrents/addTrackers *)
| TorrentsAddTags.               (* POST /api/v2/torrents/addTags *)

Inductive event : Type :=
| Call (ep : endpoint)
| Upload (file_name : string)    (* POST /api/v2/torrents/add with the file *)
| LogAppend (text : string)      (* a write to qbittorrent_debug.log *)
| Print (text : string).

(** How a block ends: with a value, by [return s], or by an exception
    whose [str] is [msg]. *)
Inductive result (A : Type) : Type :=
| Value (a : A)
| Return (s : string)
| Raise (msg : string).
Arguments Value {A} a.
Arguments Return {A} s.
Arguments Raise {A} msg.

Definition io (A : Type) : Type := (list event * result A)%type.

Definition ret {A} (a : A) : io A := ([], Value a).

Definition bind {A B} (m : io A) (f : A -> io B) : io B :=
  match m with
  | (t, Value a) => let (t', r) := f a in ((t ++ t')%list, r)
  | (t, Return s) => (t, Return s)
  | (t, Raise msg) => (t, Raise msg)
  end.

Declare Scope cmd_scope.
Notation "x <- m ;; k" := (bind m (fun x => k))
  (at level 61, m at next level, right associativity) : cmd_scope.
Notation "m ;;; k" := (bind m (fun _ => k))
  (at level 61, right associativity) : cmd_scope.
Local Open Scope cmd_scope.

Definition return_ {A} (s : string) : io A := ([], Return s).

Definition raise {A} (msg : string) : io A := ([], Raise msg).

(** [try: body except Exception as e: handler] (and the bare [except:]). *)
Definition try_except {A} (body : io A) (handler : string -> io A) : io A :=
  match body with
  | (t, Raise msg) => let (t', r) := handler msg in ((t ++ t')%list, r)
  | _ => body
  end.

(** One request of the client, announced by the event [e]. *)
Definition send {B} (e : event) (r : reply B) : io (Z * B) :=
  ([e],
   match r with
   | TransportError msg => Raise msg
   | Response code body => Value (code, body)
   end).

Definition json {A} (d : decoded A) : io A :=
  match d with
  | Malformed msg => ([], Raise msg)
  | Decoded a => ([], Value a)
  end.

Definition print (text : string) : io unit := ([Print text], Value tt).

(** What the caller observes. *)
Inductive outcome : Type :=
| Returned (s : string)
| Raised (msg : string).

Definition trace {A} (m : io A) : list event := fst m.

Definition outcome_of (m : io Empty_set) : outcome :=
  match snd m with
  | Value v => match v with end
  | Return s => Returned s
  | Raise msg => Raised msg
  end.

Definition is_call (e : event) : bool :=
  match e with Call _ | Upload _ => true | _ => false end.

Definition is_upload (e : event) : bool :=
  match e with Upload _ => true | _ => false end.

Definition requests (t : list event) : nat := List.length (filter is_call t).

(** The body of an answer: its text, and [str(response.json())]. *)
Record body : Type := {
  text : string;
  json_str : decoded string
}.

(** The service as one command sees it. *)
Record server (B : Type) : Type := {
  login_reply : reply cookies;
  answer : reply B
}.
Arguments login_reply {B} s.
Arguments answer {B} s.

Definition login_failed : string := "Login failed, unable to get SID".

(** [login_to_qbittorrent] (lines 12-32), under the events of this part. *)
Definition login_to_qbittorrent (r : reply cookies) : io (option cookies) :=
  response <- send (Call AuthLogin) r ;;
  if (fst response =? 200)%Z then ret (Some (snd response)) else ret None.

(** [str(delete_files).lower()]. *)
Definition lower_str_bool (b : bool) : string :=
  if b then "true" else "false".

(** delete_torrent_api (lines 116-170). *)
Definition delete_torrent_api (s : server body) (hashes : string)
    (delete_files : bool) : io Empty_set :=
  cookies <- login_to_qbittorrent (login_reply s) ;;
  if negb (truthy_cookies cookies) then return_ login_failed
  else
    try_except
      (response <- send (Call TorrentsDelete) (answer s) ;;
       if (fst response =? 200)%Z then
         if String.eqb hashes "all"
         then return_ "Successfully deleted all torrents"
         else return_ ("Successfully deleted specified torrent: " ++ hashes)
       else
         print ("Failed to delete torrent, HTTP status code: "
                ++ Py.str_int (fst response)) ;;;
         print ("Response body: " ++ text (snd response)) ;;;
         try_except
           (parsed <- json (json_str (snd response)) ;;
            return_ ("Failed to delete torrent, HTTP status code: "
                     ++ Py.str_int (fst response)
                     ++ ", response body: " ++ parsed))
           (fun _ =>
              return_ ("Failed to delete torrent, HTTP status code: "
                       ++ Py.str_int (fst response)
                       ++ ", response body: " ++ text (snd response))))
      (fun e => return_ ("Error: " ++ e)).

(** pause_torrent_api (lines 172-214). *)
Definition pause_torrent_api (s : server body) (hashes : string)
  : io Empty_set :=
  cookies <- login_to_qbittorrent (login_reply s) ;;
  if negb (truthy_cookies cookies) then return_ login_failed
  else
    try_except
      (response <- send (Call TorrentsStop) (answer s) ;;
       if (fst response =? 200)%Z then
         if String.eqb hashes "all"
         then return_ "Successfully paused all torrents"
         else return_ ("Successfully paused specified torrent: " ++ hashes)
       else
         return_ ("Failed to pause torrent: status code "
                  ++ Py.str_int (fst response)))
      (fun e => return_ ("Error: " ++ e)).

(** resume_torrent_api (lines 216-257). *)
Definition resume_torrent_api (s : server body) (hashes : string)
  : io Empty_set :=
  cookies <- login_to_qbittorrent (login_reply s) ;;
  if negb (truthy_cookies cookies) then return_ login_failed
  else
    try_except
      (response <- send (Call TorrentsStart) (answer s) ;;
       if (fst response =? 200)%Z then
         if String.eqb hashes "all"
         then return_ "Successfully resumed all torrents"
         else return_ ("Successfully resumed specified torrent: " ++ hashes)
       else
         return_ ("Failed to resume torrent: status code "
                  ++ Py.str_int (fst response)))
      (fun e => return_ ("Error: " ++ e)).

(** set_global_download_limit_api (lines 320-357). *)
Definition set_global_download_limit_api (s : server body) (limit : Z)
  : io Empty_set :=
  cookies <- login_to_qbittorrent (login_reply s) ;;
  if negb (truthy_cookies cookies) then return_ login_failed
  else
    try_except
      (response <- send (Call TransferSetDownloadLimit) (answer s) ;;
       if (fst response =? 200)%Z then
         return_ ("Successfully set speed limit: " ++ Py.str_int limit)
       else
         return_ ("Failed to set speed limit: status code "
                  ++ Py.str_int (fst response)))
      (fun e => return_ ("Error: " ++ e)).

(** set_global_upload_limit_api (lines 359-394). *)
Definition set_global_upload_limit_api (s : server body) (limit : Z)
  : io Empty_set :=
  cookies <- login_to_qbittorrent (login_reply s) ;;
  if negb (truthy_cookies cookies) then return_ login_failed
  else
    try_except
      (response <- send (Call TransferSetUploadLimit) (answer s) ;;
       if (fst response =? 200)%Z then
         return_ ("Successfully set speed limit: " ++ Py.str_int limit)
       else
         return_ ("Failed to set speed limit: status code "
                  ++ Py.str_int (fst response)))
      (fun e => return_ ("Error: " ++ e)).

(** set_file_priority_api (lines 424-469). *)
Definition set_file_priority_api (s : server body) (hash id : string)
    (priority : Z) : io Empty_set :=
  cookies <- login_to_qbittorrent (login_reply s) ;;
  if negb (truthy_cookies cookies) then return_ login_failed
  else
    try_except
      (response <- send (Call TorrentsFilePrio) (answer s) ;;
       if (fst response =? 200)%Z then
         return_ ("Successfully set file priority: " ++ hash ++ ":" ++ id
                  ++ ":" ++ Py.str_int priority)
       else
         return_ ("Failed to set file priority: status code "
                  ++ Py.str_int (fst response)))
      (fun e => return_ ("Error: " ++ e)).

(** set_torrent_download_limit_api (lines 471-507). *)
Definition set_torrent_download_limit_api (s : server body) (hash : string)
    (limit : Z) : io Empty_set :=
  cookies <- login_to_qbittorrent (login_reply s) ;;
  if negb (truthy_cookies cookies) then return_ login_failed
  else
    try_except
      (response <- send (Call TorrentsSetDownloadLimit) (answer s) ;;
       if (fst response =? 200)%Z then
         return_ ("Successfully set torrent download speed limit: "
                  ++ hash ++ ":" ++ Py.str_int limit)
       else
         return_ ("Failed to set torrent download speed limit: status code "
                  ++ Py.str_int (fst response)))
      (fun e => return_ ("Error: " ++ e)).

(** set_torrent_upload_limit_api (lines 510-546). *)
Definition set_torrent_upload_limit_api (s : server body) (hash : string)
    (limit : Z) : io Empty_set :=
  cookies <- login_to_qbittorrent (login_reply s) ;;
  if negb (truthy_cookies cookies) then return_ login_failed
  else
    try_except
      (response <- send (Call TorrentsSetUploadLimit) (answer s) ;;
       if (fst response =? 200)%Z then
         return_ ("Successfully set torrent upload speed limit: "
                  ++ hash ++ ":" ++ Py.str_int limit)
       else
         return_ ("Failed to set torrent upload speed limit: status code "
                  ++ Py.str_int (fst response)))
      (fun e => return_ ("Error: " ++ e)).

(** add_trackers_to_torrent_api (lines 548-587). *)
Definition add_trackers_to_torrent_api (s : server body)
    (hash trackers : string) : io Empty_set :=
  cookies <- login_to_qbittorrent (login_reply s) ;;
  if negb (truthy_cookies cookies) then return_ login_failed
  else
    try_except
      (response <- send (Call TorrentsAddTrackers) (answer s) ;;
       if (fst response =? 200)%Z then
         return_ ("Successfully added trackers: " ++ hash ++ ":" ++ trackers)
       else
         return_ ("Failed to add trackers: status code "
                  ++ Py.str_int (fst response)))
      (fun e => return_ ("Error: " ++ e)).

(** add_torrent_tags_api (lines 589-628). *)
Definition add_torrent_tags_api (s : server body) (hash tags : string)
  : io Empty_set :=
  cookies <- login_to_qbittorrent (login_reply s) ;;
  if negb (truthy_cookies cookies) then return_ login_failed
  else
    try_except
      (response <- send (Call TorrentsAddTags) (answer s) ;;
       if (fst response =? 200)%Z then
         return_ ("Successfully added torrent tags: " ++ hash ++ ":" ++ tags)
       else
         return_ ("Failed to add torrent tags: status code "
                  ++ Py.str_int (fst response)))
      (fun e => return_ ("Error: " ++ e)).

(** *** get_torrent_trackers_urls (lines 259-318) *)

(** One entry of the tracker list: [tracker.get('url')],
    [tracker.get('status')] and [tracker.get('msg')], [None] when the key
    is absent. *)
Record tracker : Type := {
  url : option string;
  status : option Z;
  msg : option string
}.

Definition no_startswith : string :=
  "'NoneType' object has no attribute 'startswith'".

(** The [for tracker in trackers] loop, with the list [tracker_urls] it
    appends to. *)
Fixpoint tracker_loop (trackers : list tracker) (tracker_urls : list string)
  : io (list string) :=
  match trackers with
  | [] => ret tracker_urls
  | tracker :: rest =>
      match url tracker with
      | None => raise no_startswith
      | Some u =>
          if negb (String.prefix "** [" u)
          then tracker_loop rest (tracker_urls ++ [u])%list
          else tracker_loop rest tracker_urls
      end
  end.

Definition get_torrent_trackers_urls (s : server (decoded (list tracker)))
    (hash : string) : io Empty_set :=
  cookies <- login_to_qbittorrent (login_reply s) ;;
  if negb (truthy_cookies cookies) then return_ login_failed
  else
    try_except
      (response <-
         try_except (send (Call TorrentsTrackers) (answer s))
           (fun e => return_ ("Error: " ++ e)) ;;
       if (fst response =? 200)%Z then
         trackers <- json (snd response) ;;
         if negb (truthy_list trackers) then
           return_ "This torrent has no trackers"
         else
           tracker_urls <- tracker_loop trackers [] ;;
           if negb (truthy_list tracker_urls) then
             return_ "This torrent has no valid tracker URLs"
           else return_ (String.concat "," tracker_urls)
       else
         return_ ("Failed to get torrent trackers: status code "
                  ++ Py.str_int (fst response)))
      (fun e => return_ ("Error: " ++ e)).

(** *** add_torrent_api (lines 34-114) *)

(** [json.loads(query)] as far as the function tells its results apart:
    it raises [JSONDecodeError], or gives a list, a dictionary (with the
    value of ["file_paths"] when that key is present) or something else.
    Paths are strings. *)
Inductive loaded : Type :=
| NotJSON
| JSONList (data : list string)
| JSONDict (file_paths : option (list string))
| JSONOther.

(** A path on the disk: [os.path.exists] is false, or [open] and [read]
    raise, or the content is read. *)
Inductive file : Type :=
| Missing
| Unreadable (msg : string)
| Readable (content : string).

(** What a call of [add_torrent_api] meets besides the login: the library
    functions it applies to the query, the disk, and the answers of the
    service to the uploads, by position of the path in the list.
    [log_error] is the exception that opening the log file raises, if
    any. *)
Record setting : Type := {
  log_error : option string;
  json_loads : string -> loaded;
  strip : string -> string;
  basename : string -> string;
  file_at : string -> file;
  upload_reply : nat -> reply body
}.

Definition newline : string := String (ascii_of_nat 10) "".

Definition upload_line (file_name : string) (status_code : Z) : string :=
  if (status_code =? 200)%Z then
    "Successfully added torrent file: " ++ file_name
  else if (status_code =? 415)%Z then
    "Invalid torrent file: " ++ file_name
  else
    "Failed to add torrent file " ++ file_name ++ ": status code "
    ++ Py.str_int status_code.

(** The [for file_path in file_paths] loop; [i] is the position of the
    next path, [results] the list appended to. *)
Fixpoint add_loop (env : setting) (i : nat) (file_paths : list string)
    (results : list string) : io (list string) :=
  match file_paths with
  | [] => ret results
  | file_path :: rest =>
      match file_at env file_path with
      | Missing =>
          let line := "File does not exist: " ++ file_path in
          add_loop env (S i) rest (results ++ [line])%list
      | Unreadable e =>
          let line := "Error reading file " ++ file_path ++ ": " ++ e in
          add_loop env (S i) rest (results ++ [line])%list
      | Readable file_content =>
          let file_name := basename env file_path in
          response <- send (Upload file_name) (upload_reply env i) ;;
          let line := upload_line file_name (fst response) in
          add_loop env (S i) rest (results ++ [line])%list
      end
  end.

Definition add_torrent_api (login : reply cookies) (env : setting)
    (query : string) : io Empty_set :=
  match log_error env with
  | Some e => raise e
  | None => ([LogAppend ("Received query: " ++ query ++ newline)], Value tt)
  end ;;;
  cookies <- login_to_qbittorrent login ;;
  if negb (truthy_cookies cookies) then return_ login_failed
  else
    try_except
      (file_paths <-
         match json_loads env query with
         | NotJSON => ret [strip env query]
         | JSONList data => ret data
         | JSONDict (Some paths) => ret paths
         | JSONDict None | JSONOther =>
             return_ ("Error: JSON format not recognized, "
                      ++ "please provide required format")
         end ;;
       if negb (truthy_list file_paths) then
         return_ "Error: No torrent file path provided"
       else
         results <- add_loop env 0 file_paths [] ;;
         return_ (String.concat newline results))
      (fun e => return_ ("Error: " ++ e)).

(** *** Vocabulary of the statements about these two functions *)

(** The urls of the trackers that are not special entries (the ones whose
    url starts with ["** ["]), in the order of the list. *)
Definition ordinary_urls (trackers : list tracker) : list string :=
  filter (fun u => negb (String.prefix "** [" u))
    (flat_map (fun t => match url t with Some u => [u] | None => [] end)
       trackers).

Definition readable (env : setting) (file_path : string) : bool :=
  match file_at env file_path with
  | Readable _ => true
  | _ => false
  end.

(** The line reported for the path at position [i], when its upload, if
    any, is answered. *)
Definition line_at (env : setting) (i : nat) (file_path : string) : string :=
  match file_at env file_path with
  | Missing => "File does not exist: " ++ file_path
  | Unreadable e => "Error reading file " ++ file_path ++ ": " ++ e
  | Readable _ =>
      match upload_reply env i with
      | Response code _ => upload_line (basename env file_path) code
      | TransportError _ => ""
      end
  end.

Fixpoint lines_from (env : setting) (i : nat) (file_paths : list string)
  : list string :=
  match file_paths with
  | [] => []
  | file_path :: rest => line_at env i file_path :: lines_from env (S i) rest
  end.

(** The uploads of the readable files among [file_paths], in order. *)
Definition uploads_of (env : setting) (file_paths : list string)
  : list event :=
  map (fun file_path => Upload (basename env file_path))
    (filter (readable env) file_paths).

(** The ways the query gives the list [file_paths] of the loop. *)
Definition query_gives (env : setting) (query : string)
    (file_paths : list string) : Prop :=
  (json_loads env query = NotJSON /\ file_paths = [strip env query])
  \/ json_loads env query = JSONList file_paths
  \/ json_loads env query = JSONDict (Some file_paths).

(** A disk with one torrent file and one directory, a service that accepts
    the first upload and cannot be reached for the second. *)
Definition sample_setting : setting :=
  {| log_error := None;
     json_loads := fun q =>
       if String.eqb q "[]" then JSONList []
       else if String.eqb q "list" then
         JSONList ["/t/a.torrent"; "/t/missing"; "/t/dir"]
       else if String.eqb q "twice" then
         JSONList ["/t/a.torrent"; "/t/a.torrent"]
       else NotJSON;
     strip := fun q => q;
     basename := fun p =>
       if String.eqb p "/t/a.torrent" then "a.torrent" else p;
     file_at := fun p =>
       if String.eqb p "/t/a.torrent" then Readable "d8:announce"
       else if String.eqb p "/t/dir" then Unreadable "Is a directory"
       else Missing;
     upload_reply := fun i =>
       match i with
       | 0 => Response 200 {| text := "Ok."; json_str := Malformed "" |}
       | _ => TransportError "timed out"
       end |}.

(** A tracker list with a special entry, and one with an entry that has
    no url. *)
Definition sample_trackers : list tracker :=
  [{| url := Some "** [DHT] **"; status := Some 2%Z; msg := None |};
   {| url := Some "udp://a:1/announce"; status := Some 2%Z; msg := None |};
   {| url := Some "http://b/announce"; status := None; msg := Some "" |}].

Definition broken_trackers : list tracker :=
  [{| url := Some "udp://a:1/announce"; status := Some 2%Z; msg := None |};
   {| url := None; status := Some 0%Z; msg := None |}].

(** *** The commands with one request, as one family *)

Inductive command : Type :=
| Delete (hashes : string) (delete_files : bool)
| Pause (hashes : string)
| Resume (hashes : string)
| SetGlobalDownloadLimit (limit : Z)
| SetGlobalUploadLimit (limit : Z)
| SetFilePriority (hash id : string) (priority : Z)
| SetTorrentDownloadLimit (hash : string) (limit : Z)
| SetTorrentUploadLimit (hash : string) (limit : Z)
| AddTrackers (hash trackers : string)
| AddTags (hash tags : string).

Definition run (c : command) (s : server body) : io Empty_set :=
  match c with
  | Delete hashes delete_files => delete_torrent_api s hashes delete_files
  | Pause hashes => pause_torrent_api s hashes
  | Resume hashes => resume_torrent_api s hashes
  | SetGlobalDownloadLimit limit => set_global_download_limit_api s limit
  | SetGlobalUploadLimit limit => set_global_upload_limit_api s limit
  | SetFilePriority hash id priority =>
      set_file_priority_api s hash id priority
  | SetTorrentDownloadLimit hash limit =>
      set_torrent_download_limit_api s hash limit
  | SetTorrentUploadLimit hash limit =>
      set_torrent_upload_limit_api s hash limit
  | AddTrackers hash trackers => add_trackers_to_torrent_api s hash trackers
  | AddTags hash tags => add_torrent_tags_api s hash tags
  end.

Definition endpoint_of (c : command) : endpoint :=
  match c with
  | Delete _ _ => TorrentsDelete
  | Pause _ => TorrentsStop
  | Resume _ => TorrentsStart
  | SetGlobalDownloadLimit _ => TransferSetDownloadLimit
  | SetGlobalUploadLimit _ => TransferSetUploadLimit
  | SetFilePriority _ _ _ => TorrentsFilePrio
  | SetTorrentDownloadLimit _ _ => TorrentsSetDownloadLimit
  | SetTorrentUploadLimit _ _ => TorrentsSetUploadLimit
  | AddTrackers _ _ => TorrentsAddTrackers
  | AddTags _ _ => TorrentsAddTags
  end.

End Cmd.

(** The line [add_torrent_api] appends to its debug log. *)
Definition log_line (query : string) : Cmd.event :=
  Cmd.LogAppend
    (String.append "Received query: " (String.append query Cmd.newline)).

(** ** Basic facts about blocks *)

Lemma bind_Value {A B} (t : list event) (a : A) (f : A -> io B) :
  bind (t, Value a) f = (t ++ fst (f a), snd (f a)).
Proof. unfold bind. destruct (f a); reflexivity. Qed.

Lemma bind_trace_prefix {A B} (m : io A) (f : A -> io B) :
  exists t', trace (bind m f) = trace m ++ t'.
Proof.
  destruct m as [t [a | d | msg]]; unfold bind, trace; simpl.
  - destruct (f a) as [t' r]. exists t'. reflexivity.
  - exists []. now rewrite app_nil_r.
  - exists []. now rewrite app_nil_r.
Qed.

(** One iteration of the loop on a page read with status code 200. *)
Lemma poll_loop_page w attempt rest st p :
  page_at w attempt = Some p ->
  poll_loop w (attempt :: rest) st =
    if is_Stopped (page_status p) then
      ([Post SearchResults], Value (state_of p, Break attempt))
    else if truthy_list (page_results p) && (2 <=? attempt)%nat then
      ([Post SearchResults], Value (state_of p, Break attempt))
    else if (attempt <? SEARCH_MAX_RETRIES - 1)%nat then
      (Post SearchResults :: Sleep SEARCH_RETRY_DELAY_SECONDS
         :: fst (poll_loop w rest (state_of p)),
       snd (poll_loop w rest (state_of p)))
    else
      (Post SearchResults :: fst (poll_loop w rest (state_of p)),
       snd (poll_loop w rest (state_of p))).
Proof.
  unfold page_at. intros H. cbn [poll_loop].
  destruct (poll_reply w attempt) as [msg | code body]; [discriminate |].
  destruct (code =? 200)%Z eqn:Hc; [| discriminate].
  destruct (poll_json body) as [msg | q] eqn:Hj; [discriminate |].
  injection H as ->.
  unfold post. rewrite bind_Value. cbn [fst snd]. rewrite Hc. cbn [negb].
  rewrite Hj. unfold json. rewrite bind_Value. cbn [fst snd status torrents].
  fold (state_of p).
  destruct (is_Stopped (page_status p)); [reflexivity |].
  destruct (truthy_list (page_results p) && (2 <=? attempt)%nat);
    [reflexivity |].
  destruct (attempt <? SEARCH_MAX_RETRIES - 1)%nat.
  - unfold sleep. rewrite bind_Value. cbn [fst snd app].
    destruct (poll_loop w rest (state_of p)); reflexivity.
  - unfold ret. rewrite bind_Value. cbn [fst snd app].
    destruct (poll_loop w rest (state_of p)); reflexivity.
Qed.

(** Once logged in and started, the function is its loop followed by
    [after_loop], with the exceptions of the loop turned into envelopes. *)
Lemma search_torrents_api_started w pattern max_size_bytes search_id :
  login_ok w -> start_ok w search_id ->
  search_torrents_api w pattern max_size_bytes =
    (Post AuthLogin :: Post SearchStart
       :: fst (poll_loop w (seq 0 SEARCH_MAX_RETRIES) initial_state),
     match snd (poll_loop w (seq 0 SEARCH_MAX_RETRIES) initial_state) with
     | Value exit =>
         Return (after_loop search_id pattern max_size_bytes (fst exit))
     | Return d => Return d
     | Raise msg => Return [("error", VStr (exception_message msg))]
     end).
Proof.
  intros (c & Hl & Hc) (text & Hs & Hid).
  unfold search_torrents_api, login_to_qbittorrent, search_try_block.
  fold initial_state.
  destruct (poll_loop w (seq 0 SEARCH_MAX_RETRIES) initial_state)
    as [t [exit | d | msg]].
  all: rewrite Hl, Hs; destruct c as [| c0 c']; [congruence |].
  all: unfold bind, post, json, ret, try_except, return_, after_loop.
  all: cbn [fst snd negb Z.eqb Pos.eqb truthy_cookies start_json app].
  all: rewrite Hid; cbn [negb app]; rewrite ?app_nil_r.
  - destruct (negb (truthy_list (torrents (fst exit)))
              && negb (is_Stopped (status (fst exit))));
      cbn [app]; rewrite app_nil_r; reflexivity.
  - reflexivity.
  - reflexivity.
Qed.

Lemma is_Stopped_false (s : option string) :
  s <> Some "Stopped" -> is_Stopped s = false.
Proof.
  destruct s as [s |]; [| reflexivity]. cbn [is_Stopped]. intros H.
  destruct (String.eqb s "Stopped") eqn:E; [| reflexivity].
  apply String.eqb_eq in E. congruence.
Qed.

Lemma truthy_list_true {A} (l : list A) : l <> [] -> truthy_list l = true.
Proof. destruct l; [congruence | reflexivity]. Qed.

Lemma truthy_list_false {A} (l : list A) : truthy_list l = false -> l = [].
Proof. destruct l; [reflexivity | discriminate]. Qed.


(** ** The polling loop: early acceptance, timeout, immediate stop *)

(** C1. When every poll answers with a non-empty result list and a status
    other than 'Stopped', the loop is left by [break] at attempt 2, after
    three polls and two delays, and the function returns the envelope
    shaped from the results of that third poll. *)
Theorem early_acceptance w pattern max_size_bytes search_id :
  login_ok w -> start_ok w search_id ->
  (forall n, exists p,
      page_at w n = Some p /\ page_results p <> []
      /\ page_status p <> Some "Stopped") ->
  exists p2,
    page_at w 2 = Some p2
    /\ poll_loop w (seq 0 SEARCH_MAX_RETRIES) initial_state =
         ([Post SearchResults; Sleep SEARCH_RETRY_DELAY_SECONDS;
           Post SearchResults; Sleep SEARCH_RETRY_DELAY_SECONDS;
           Post SearchResults],
          Value (state_of p2, Break 2))
    /\ count (is_post SearchResults)
             (trace (search_torrents_api w pattern max_size_bytes)) = 3
    /\ outcome_of (search_torrents_api w pattern max_size_bytes) =
         Returned (shape search_id pattern (page_results p2) max_size_bytes).
Proof.
  intros Hl Hs H.
  destruct (H 0) as (p0 & E0 & R0 & S0).
  destruct (H 1) as (p1 & E1 & R1 & S1).
  destruct (H 2) as (p2 & E2 & R2 & S2).
  exists p2. split; [exact E2 |].
  assert (L : poll_loop w (seq 0 SEARCH_MAX_RETRIES) initial_state =
              ([Post SearchResults; Sleep SEARCH_RETRY_DELAY_SECONDS;
                Post SearchResults; Sleep SEARCH_RETRY_DELAY_SECONDS;
                Post SearchResults],
               Value (state_of p2, Break 2))).
  { change (seq 0 SEARCH_MAX_RETRIES) with (0 :: 1 :: 2 :: seq 3 7).
    rewrite (poll_loop_page _ _ _ _ _ E0), (is_Stopped_false _ S0).
    rewrite andb_false_r. cbn [Nat.ltb Nat.leb SEARCH_MAX_RETRIES Nat.sub].
    rewrite (poll_loop_page _ _ _ _ _ E1), (is_Stopped_false _ S1).
    rewrite andb_false_r. cbn [Nat.ltb Nat.leb SEARCH_MAX_RETRIES Nat.sub].
    rewrite (poll_loop_page _ _ _ _ _ E2), (is_Stopped_false _ S2).
    rewrite (truthy_list_true _ R2). reflexivity. }
  split; [exact L |].
  rewrite (search_torrents_api_started _ _ _ _ Hl Hs), L.
  unfold trace, outcome_of, after_loop. cbn [fst snd state_of torrents status].
  rewrite (truthy_list_true _ R2). split; reflexivity.
Qed.

Lemma early_acceptance_witness :
  exists p2,
    page_at world_running_nonempty 2 = Some p2
    /\ poll_loop world_running_nonempty (seq 0 SEARCH_MAX_RETRIES)
         initial_state =
         ([Post SearchResults; Sleep SEARCH_RETRY_DELAY_SECONDS;
           Post SearchResults; Sleep SEARCH_RETRY_DELAY_SECONDS;
           Post SearchResults],
          Value (state_of p2, Break 2))
    /\ count (is_post SearchResults)
             (trace (search_torrents_api world_running_nonempty "ubuntu"
                       (Py.Finite 5368709120))) = 3
    /\ outcome_of (search_torrents_api world_running_nonempty "ubuntu"
                     (Py.Finite 5368709120)) =
         Returned (shape (Some (IdInt 7)) "ubuntu" (page_results p2)
                     (Py.Finite 5368709120)).
Proof.
  apply early_acceptance.
  - exists [("SID", "abc")]. split; [reflexivity | discriminate].
  - exists "{id: 7}". split; reflexivity.
  - intros n. eexists. split; [reflexivity |].
    split; cbn; discriminate.
Defined.



(** C8. When the first poll answers 'Stopped' with an empty result list,
    the function makes that single poll, no delay, and returns the success
    envelope with [total_results] 0, [filtered_results] 0 and no result. *)
Theorem immediate_stop w pattern max_size_bytes search_id p0 :
  login_ok w -> start_ok w search_id ->
  page_at w 0 = Some p0 ->
  page_status p0 = Some "Stopped" ->
  page_results p0 = [] ->
  search_torrents_api w pattern max_size_bytes =
    ([Post AuthLogin; Post SearchStart; Post SearchResults],
     Return [("search_id", value_of_id search_id);
             ("pattern", VStr pattern);
             ("total_results", VInt 0);
             ("filtered_results", VInt 0);
             ("results", VTorrents [])]).
Proof.
  intros Hl Hs Hp Hst Hr.
  rewrite (search_torrents_api_started _ _ _ _ Hl Hs).
  change (seq 0 SEARCH_MAX_RETRIES) with (0 :: seq 1 9).
  rewrite (poll_loop_page _ _ _ _ _ Hp), Hst.
  cbn [is_Stopped String.eqb Ascii.eqb Bool.eqb fst snd].
  unfold after_loop. cbn [fst state_of torrents status]. rewrite Hr, Hst.
  reflexivity.
Qed.

Lemma immediate_stop_witness :
  search_torrents_api world_stopped_empty "ubuntu" (Py.Finite 5368709120) =
    ([Post AuthLogin; Post SearchStart; Post SearchResults],
     Return [("search_id", VInt 7);
             ("pattern", VStr "ubuntu");
             ("total_results", VInt 0);
             ("filtered_results", VInt 0);
             ("results", VTorrents [])]).
Proof.
  apply (immediate_stop world_stopped_empty "ubuntu" (Py.Finite 5368709120)
           (Some (IdInt 7))
           {| page_status := Some "Stopped"; page_results := [] |}).
  - exists [("SID", "abc")]. split; [reflexivity | discriminate].
  - exists "{id: 7}". split; reflexivity.
  - reflexivity.
  - reflexivity.
  - reflexivity.
Defined.

(** One iteration of the loop on anything else: the poll is the last
    thing the function does in the loop. *)
Lemma poll_loop_no_page w attempt rest st :
  page_at w attempt = None ->
  poll_loop w (attempt :: rest) st =
    ([Post SearchResults],
     match poll_reply w attempt with
     | TransportError msg => Raise msg
     | Response code body =>
         if (code =? 200)%Z then
           match poll_json body with
           | Malformed msg => Raise msg
           | Decoded p => Value (state_of p, Break attempt)
           end
         else Return (poll_failure code body)
     end).
Proof.
  unfold page_at. intros H. cbn [poll_loop]. unfold post, bind.
  destruct (poll_reply w attempt) as [msg | code body]; [reflexivity |].
  cbn [fst snd]. destruct (code =? 200)%Z; cbn [negb]; [| reflexivity].
  destruct (poll_json body) as [msg | p]; [reflexivity | discriminate].
Qed.

Lemma iteration_cases (w : world) (attempt : nat) : iteration w attempt.
Proof.
  destruct (page_at w attempt) as [p |] eqn:Hp.
  - destruct (is_Stopped (page_status p)) eqn:Hs.
    + apply (it_break w attempt p Hp). now rewrite Hs.
    + destruct (truthy_list (page_results p) && (2 <=? attempt)%nat) eqn:Ht.
      * apply (it_break w attempt p Hp). now rewrite Hs, Ht.
      * exact (it_continue w attempt p Hp Hs Ht).
  - exact (it_abort w attempt Hp).
Qed.

Lemma poll_loop_break w attempt rest st p :
  page_at w attempt = Some p ->
  is_Stopped (page_status p)
  || truthy_list (page_results p) && (2 <=? attempt)%nat = true ->
  poll_loop w (attempt :: rest) st =
    ([Post SearchResults], Value (state_of p, Break attempt)).
Proof.
  intros Hp Hb. rewrite (poll_loop_page _ _ _ _ _ Hp).
  destruct (is_Stopped (page_status p)); [reflexivity |].
  cbn [orb] in Hb. now rewrite Hb.
Qed.

Lemma poll_loop_continue w attempt rest st p :
  page_at w attempt = Some p ->
  is_Stopped (page_status p) = false ->
  truthy_list (page_results p) && (2 <=? attempt)%nat = false ->
  poll_loop w (attempt :: rest) st =
    (Post SearchResults
       :: (if (attempt <? SEARCH_MAX_RETRIES - 1)%nat
           then [Sleep SEARCH_RETRY_DELAY_SECONDS] else [])
       ++ fst (poll_loop w rest (state_of p)),
     snd (poll_loop w rest (state_of p))).
Proof.
  intros Hp Hs Ht. rewrite (poll_loop_page _ _ _ _ _ Hp), Hs, Ht.
  destruct (attempt <? SEARCH_MAX_RETRIES - 1)%nat; reflexivity.
Qed.

(** ** Leaving the loop by exhaustion *)

Lemma poll_loop_exhausted w attempts :
  forall st t st',
    poll_loop w attempts st = (t, Value (st', Exhausted)) ->
    attempts <> [] ->
    2 <= last attempts 0 ->
    torrents st' = [] /\ is_Stopped (status st') = false.
Proof.
  induction attempts as [| a rest IH]; intros st t st' H Hne Hlast;
    [congruence |].
  destruct (iteration_cases w a) as [p Hp Hb | p Hp Hs Ht | Hp].
  - rewrite (poll_loop_break _ _ _ _ _ Hp Hb) in H. discriminate.
  - rewrite (poll_loop_continue _ _ _ _ _ Hp Hs Ht) in H.
    destruct rest as [| b rest'].
    + cbn [poll_loop ret fst snd last] in *.
      injection H as _ <-. cbn [state_of torrents status].
      split; [| exact Hs].
      apply truthy_list_false.
      destruct (truthy_list (page_results p)); [| reflexivity].
      cbn [andb] in Ht. apply Nat.leb_gt in Ht. lia.
    + destruct (poll_loop w (b :: rest') (state_of p)) as [t' r] eqn:E.
      cbn [fst snd] in H. injection H as _ ->.
      apply (IH _ _ _ E); [discriminate | exact Hlast].
  - rewrite (poll_loop_no_page _ _ _ _ Hp) in H.
    unfold page_at in Hp.
    destruct (poll_reply w a) as [msg | code body]; [discriminate |].
    destruct (code =? 200)%Z; [| discriminate].
    destruct (poll_json body); discriminate.
Qed.

(** C9. If the loop of [search_torrents_api] goes through its ten attempts
    without a [break] (and without a failure), the results it holds at the
    end are empty and the last status is not 'Stopped': the loop is never
    left by exhaustion with results in hand. *)
Theorem exhausted_without_results w t st' :
  poll_loop w (seq 0 SEARCH_MAX_RETRIES) initial_state =
    (t, Value (st', Exhausted)) ->
  torrents st' = [] /\ is_Stopped (status st') = false.
Proof.
  intros H. apply (poll_loop_exhausted _ _ _ _ _ H).
  - discriminate.
  - cbn. lia.
Qed.

Lemma exhausted_without_results_witness :
  exists t st',
    poll_loop world_running_empty (seq 0 SEARCH_MAX_RETRIES) initial_state
    = (t, Value (st', Exhausted))
    /\ torrents st' = [] /\ is_Stopped (status st') = false.
Proof.
  eexists _, _. split; [reflexivity |].
  apply (exhausted_without_results world_running_empty
           (fst (poll_loop world_running_empty (seq 0 SEARCH_MAX_RETRIES)
                   initial_state))).
  reflexivity.
Defined.

(** ** The stages before the loop *)

(** Either the function ends before the loop, after one or two requests,
    or the login and the start succeeded. *)
Lemma search_torrents_api_cases w pattern max_size_bytes :
  (exists msg,
      login_reply w = TransportError msg
      /\ search_torrents_api w pattern max_size_bytes =
           ([Post AuthLogin], Raise msg))
  \/ (exists code c,
         login_reply w = Response code c
         /\ search_torrents_api w pattern max_size_bytes =
              ([Post AuthLogin],
               Return [("error", VStr login_failure_message)]))
  \/ (exists code c d,
         login_reply w = Response code c
         /\ lookup "error" d <> None
         /\ search_torrents_api w pattern max_size_bytes =
              ([Post AuthLogin; Post SearchStart], Return d))
  \/ (exists search_id, login_ok w /\ start_ok w search_id).
Proof.
  destruct (login_reply w) as [msg | code c] eqn:Hl.
  { left. exists msg. split; [reflexivity |].
    unfold search_torrents_api, login_to_qbittorrent. now rewrite Hl. }
  right.
  destruct (code =? 200)%Z eqn:Hc.
  2: { left. exists code, c. split; [reflexivity |].
       unfold search_torrents_api, login_to_qbittorrent. rewrite Hl.
       unfold post, bind. cbn [fst snd]. now rewrite Hc. }
  apply Z.eqb_eq in Hc. subst code.
  destruct c as [| c0 c'].
  { left. exists 200%Z, []. split; [reflexivity |].
    unfold search_torrents_api, login_to_qbittorrent. now rewrite Hl. }
  right.
  assert (Hok : login_ok w).
  { exists (c0 :: c'). split; [exact Hl | discriminate]. }
  assert (E : search_torrents_api w pattern max_size_bytes =
              try_except
                (let (t, r) := search_try_block w pattern max_size_bytes in
                 (Post AuthLogin :: t, r))
                (fun e => return_ [("error", VStr (exception_message e))])).
  { unfold search_torrents_api, login_to_qbittorrent. rewrite Hl.
    unfold post, bind, ret, try_except, return_. cbn [fst snd].
    destruct (search_try_block w pattern max_size_bytes) as [t [[] | d | m]];
      reflexivity. }
  destruct (start_reply w) as [msg | code body] eqn:Hs.
  { left. exists 200%Z, (c0 :: c'), [("error", VStr (exception_message msg))].
    split; [reflexivity |]. split; [discriminate |].
    rewrite E. unfold search_try_block. now rewrite Hs. }
  destruct (code =? 200)%Z eqn:Hc.
  2: { left. exists 200%Z, (c0 :: c'),
         [("error", VStr (start_failure_message code));
          ("response", VStr (start_text body))].
       split; [reflexivity |]. split; [discriminate |].
       rewrite E. unfold search_try_block. rewrite Hs.
       unfold post, bind. cbn [fst snd]. rewrite Hc. reflexivity. }
  apply Z.eqb_eq in Hc. subst code.
  destruct body as [text [msg | search_id]].
  { left. exists 200%Z, (c0 :: c'), [("error", VStr (exception_message msg))].
    split; [reflexivity |]. split; [discriminate |].
    rewrite E. unfold search_try_block. now rewrite Hs. }
  destruct (truthy_id search_id) eqn:Hid.
  - right. exists search_id. split; [exact Hok |].
    exists text. split; [exact Hs | exact Hid].
  - left. exists 200%Z, (c0 :: c'),
      [("error", VStr missing_id_message);
       ("response", VSearchResult search_id)].
    split; [reflexivity |]. split; [discriminate |].
    rewrite E. unfold search_try_block. rewrite Hs.
    unfold post, bind, json. cbn [fst snd negb Z.eqb Pos.eqb start_json].
    rewrite Hid. reflexivity.
Qed.

(** ** Failures and the boundary of the function *)

(** The boundary of the function (C6).  The login request is made before
    the [try] block is entered: when the transport fails there, the
    exception leaves the function.  Once the login call has an answer,
    whatever its status code, every later failure ends in a returned
    envelope. *)
Theorem error_boundary w pattern max_size_bytes :
  match login_reply w with
  | TransportError msg =>
      search_torrents_api w pattern max_size_bytes =
        ([Post AuthLogin], Raise msg)
  | Response _ _ =>
      exists d,
        outcome_of (search_torrents_api w pattern max_size_bytes) = Returned d
  end.
Proof.
  destruct (search_torrents_api_cases w pattern max_size_bytes)
    as [(msg & Hl & E) | [(code & c & Hl & E) | [(code & c & d & Hl & Herr & E)
       | (search_id & Hl & Hs)]]].
  - rewrite Hl. exact E.
  - rewrite Hl, E. eexists. reflexivity.
  - rewrite Hl, E. eexists. reflexivity.
  - rewrite (search_torrents_api_started _ _ _ _ Hl Hs).
    destruct Hl as (c & -> & _). unfold outcome_of. cbn [snd].
    destruct (snd (poll_loop w (seq 0 SEARCH_MAX_RETRIES) initial_state));
      eexists; reflexivity.
Qed.

(** C6 at a failing input.  When the login request cannot reach the
    service, no envelope is returned: the exception of the transport leaves
    [search_torrents_api].  The same failure of the start request is
    caught by the [except] clause and returned as an error envelope. *)
Lemma login_transport_error_escapes :
  search_torrents_api world_login_unreachable "ubuntu"
    (Py.Finite 5368709120)
  = ([Post AuthLogin], Raise "All connection attempts failed")
  /\ outcome_of (search_torrents_api world_start_unreachable "ubuntu"
                   (Py.Finite 5368709120))
     = Returned [("error",
                  VStr (exception_message "All connection attempts failed"))]
  /\ ~ (forall w pattern max_size_bytes,
          exists d,
            outcome_of (search_torrents_api w pattern max_size_bytes)
            = Returned d).
Proof.
  split; [reflexivity |]. split; [reflexivity |].
  intros H.
  destruct (H world_login_unreachable "ubuntu" (Py.Finite 5368709120))
    as (d & Hd).
  discriminate Hd.
Qed.

(** ** The shape of the trace of the loop *)

Lemma poll_loop_first w attempt rest st :
  exists t, fst (poll_loop w (attempt :: rest) st) = Post SearchResults :: t.
Proof.
  destruct (iteration_cases w attempt) as [p Hp Hb | p Hp Hs Ht | Hp].
  - rewrite (poll_loop_break _ _ _ _ _ Hp Hb). now exists [].
  - rewrite (poll_loop_continue _ _ _ _ _ Hp Hs Ht). eexists. reflexivity.
  - rewrite (poll_loop_no_page _ _ _ _ Hp). now exists [].
Qed.

Lemma poll_loop_trace w :
  forall n a st,
    a + n = SEARCH_MAX_RETRIES ->
    poll_trace (fst (poll_loop w (seq a n) st))
    /\ count (is_post SearchResults) (fst (poll_loop w (seq a n) st)) <= n
    /\ count is_request (fst (poll_loop w (seq a n) st)) <= n.
Proof.
  induction n as [| n IH]; intros a st Han.
  - cbn. repeat split; [constructor | lia | lia].
  - cbn [seq].
    destruct (iteration_cases w a) as [p Hp Hb | p Hp Hs Ht | Hp].
    + rewrite (poll_loop_break _ _ _ _ _ Hp Hb). cbn.
      repeat split; [constructor | lia | lia].
    + rewrite (poll_loop_continue _ _ _ _ _ Hp Hs Ht). cbn [fst].
      destruct (IH (S a) (state_of p)) as (Ht' & Hc & Hr); [lia |].
      destruct n as [| n].
      * replace (a <? SEARCH_MAX_RETRIES - 1)%nat with false
          by (symmetry; apply Nat.ltb_ge; lia).
        cbn. repeat split; [constructor | lia | lia].
      * replace (a <? SEARCH_MAX_RETRIES - 1)%nat with true
          by (symmetry; apply Nat.ltb_lt; lia).
        cbn [seq] in *.
        destruct (poll_loop_first w (S a) (seq (S (S a)) n) (state_of p))
          as (t & Et).
        rewrite Et in *. cbn [app].
        repeat split.
        -- now constructor.
        -- unfold count in *. cbn [filter is_post List.length] in *. lia.
        -- unfold count in *. cbn [filter is_request List.length] in *. lia.
    + rewrite (poll_loop_no_page _ _ _ _ Hp). cbn.
      repeat split; [constructor | lia | lia].
Qed.

Lemma poll_trace_delays t : poll_trace t -> delays_between_polls t.
Proof.
  induction 1 as [| | t Ht IH]; intros pre seconds post E.
  - destruct pre; discriminate.
  - destruct pre as [| e [| e' pre]]; discriminate.
  - destruct pre as [| e [| e' pre]].
    + discriminate.
    + injection E as <- _ <-. split; [now exists [] | now eexists].
    + injection E as <- <- E. destruct (IH _ _ _ E) as ((pre' & ->) & Hpost).
      split; [| exact Hpost].
      now exists (Post SearchResults :: Sleep SEARCH_RETRY_DELAY_SECONDS
                    :: pre').
Qed.

Lemma delays_after_requests (e1 e2 : endpoint) t :
  delays_between_polls t ->
  delays_between_polls (Post e1 :: Post e2 :: t).
Proof.
  intros H pre seconds post E.
  destruct pre as [| a [| b pre]]; try discriminate.
  injection E as <- <- E. destruct (H _ _ _ E) as ((pre' & ->) & Hpost).
  split; [| exact Hpost]. now exists (Post e1 :: Post e2 :: pre').
Qed.

(** ** Requests and delays of a whole call *)

(** C10. Every call of [search_torrents_api] ends (the model is a total
    function and its trace a finite list) after one login request, at most
    one start request and at most [SEARCH_MAX_RETRIES] = 10 polls, hence at
    most 12 requests; and every delay stands between two polls, so none
    follows the last poll. *)
Theorem bounded_requests w pattern max_size_bytes :
  let t := trace (search_torrents_api w pattern max_size_bytes) in
  count (is_post AuthLogin) t = 1
  /\ count (is_post SearchStart) t <= 1
  /\ count (is_post SearchResults) t <= SEARCH_MAX_RETRIES
  /\ count is_request t <= 12
  /\ delays_between_polls t.
Proof.
  assert (D1 : forall e, delays_between_polls [Post e]).
  { intros e [| a [| b pre]] seconds post E; discriminate. }
  assert (D2 : forall e e', delays_between_polls [Post e; Post e']).
  { intros e e' [| a [| b [| c pre]]] seconds post E; discriminate. }
  destruct (search_torrents_api_cases w pattern max_size_bytes)
    as [(msg & Hl & E) | [(code & c & Hl & E) | [(code & c & d & Hl & Herr & E)
       | (search_id & Hl & Hs)]]].
  1-3: rewrite E; unfold trace; cbn [fst]; repeat (split; [cbn; lia |]);
    auto.
  rewrite (search_torrents_api_started _ _ _ _ Hl Hs). unfold trace.
  cbn [fst].
  destruct (poll_loop_trace w SEARCH_MAX_RETRIES 0 initial_state eq_refl)
    as (Ht & Hc & Hr).
  set (t := fst (poll_loop w (seq 0 SEARCH_MAX_RETRIES) initial_state)) in *.
  assert (Hz : forall ep, ep <> SearchResults ->
                 count (is_post ep) t = 0).
  { intros ep Hep. unfold count. clear Hc Hr.
    induction Ht; cbn [filter]; destruct ep; try congruence; cbn; auto. }
  unfold count in *. cbn [filter is_post is_request List.length].
  rewrite (Hz AuthLogin), (Hz SearchStart) by discriminate.
  change SEARCH_MAX_RETRIES with 10 in *.
  repeat (split; [lia |]).
  apply delays_after_requests, poll_trace_delays, Ht.
Qed.

(** ** A poll that answers with a failing status code *)

Lemma page_at_failed w k code body :
  poll_reply w k = Response code body -> (code =? 200)%Z = false ->
  page_at w k = None.
Proof. unfold page_at. now intros -> ->. Qed.

(** In the loop: a poll that was made and answered with a status code other
    than 200 is the last event, and the loop executes [return] on the
    failure envelope. *)
Lemma poll_loop_failure w k code body :
  poll_reply w k = Response code body -> (code =? 200)%Z = false ->
  forall n a st,
    a <= k ->
    k < a + count (is_post SearchResults) (fst (poll_loop w (seq a n) st)) ->
    count (is_post SearchResults) (fst (poll_loop w (seq a n) st))
    = S (k - a)
    /\ snd (poll_loop w (seq a n) st) = Return (poll_failure code body)
    /\ exists t, fst (poll_loop w (seq a n) st) = t ++ [Post SearchResults].
Proof.
  intros Hk Hc. pose proof (page_at_failed _ _ _ _ Hk Hc) as Hnone.
  induction n as [| n IH]; intros a st Hak Hlt.
  - cbn in Hlt. lia.
  - cbn [seq] in *.
    destruct (iteration_cases w a) as [p Hp Hb | p Hp Hs Ht | Hp].
    + rewrite (poll_loop_break _ _ _ _ _ Hp Hb) in *. cbn in Hlt.
      assert (k = a) by lia. subst k. congruence.
    + rewrite (poll_loop_continue _ _ _ _ _ Hp Hs Ht) in *. cbn [fst snd] in *.
      assert (Hne : k <> a) by (intros ->; congruence).
      set (L := poll_loop w (seq (S a) n) (state_of p)) in *.
      assert (Hcount : forall t,
                 count (is_post SearchResults)
                   (Post SearchResults
                      :: (if (a <? SEARCH_MAX_RETRIES - 1)%nat
                          then [Sleep SEARCH_RETRY_DELAY_SECONDS] else [])
                      ++ t)
                 = S (count (is_post SearchResults) t)).
      { intros t. unfold count.
        destruct (a <? SEARCH_MAX_RETRIES - 1)%nat; reflexivity. }
      rewrite Hcount in *.
      destruct (IH (S a) (state_of p)) as (Hn & Hr & (t & Et));
        [lia | fold L; lia |].
      fold L in Hn, Hr, Et. rewrite Hn. repeat split.
      * lia.
      * exact Hr.
      * rewrite Et.
        exists (Post SearchResults
                  :: (if (a <? SEARCH_MAX_RETRIES - 1)%nat
                      then [Sleep SEARCH_RETRY_DELAY_SECONDS] else [])
                  ++ t).
        cbn [app]. now rewrite app_assoc.
    + rewrite (poll_loop_no_page _ _ _ _ Hp) in *. cbn in Hlt.
      assert (k = a) by lia. subst k. rewrite Hk, Hc. cbn [fst snd].
      repeat split.
      * unfold count. cbn. f_equal. lia.
      * now exists [].
Qed.

(** C7, as the code has it.  When a poll that the function made is
    answered with a status code other than 200, that poll is the last event
    of the call (no further poll, no delay), and the envelope returned
    holds the message naming the status code and the text of the response;
    it has neither a [search_id] nor a [status] key. *)
Theorem poll_failure_aborts w pattern max_size_bytes k code body :
  k < count (is_post SearchResults)
        (trace (search_torrents_api w pattern max_size_bytes)) ->
  poll_reply w k = Response code body ->
  code <> 200%Z ->
  count (is_post SearchResults)
    (trace (search_torrents_api w pattern max_size_bytes)) = S k
  /\ (exists t,
         trace (search_torrents_api w pattern max_size_bytes)
         = t ++ [Post SearchResults])
  /\ outcome_of (search_torrents_api w pattern max_size_bytes)
     = Returned [("error", VStr (poll_failure_message code));
                 ("response", VStr (poll_text body))]
  /\ lookup "search_id" (poll_failure code body) = None
  /\ lookup "status" (poll_failure code body) = None.
Proof.
  intros Hlt Hk Hc. apply Z.eqb_neq in Hc.
  destruct (search_torrents_api_cases w pattern max_size_bytes)
    as [(msg & Hl & E) | [(c0 & c & Hl & E) | [(c0 & c & d & Hl & Herr & E)
       | (search_id & Hl & Hs)]]].
  1-3: rewrite E in Hlt; cbn in Hlt; lia.
  rewrite (search_torrents_api_started _ _ _ _ Hl Hs) in *.
  unfold trace, outcome_of in *. cbn [fst snd] in *.
  assert (Hcount : forall t,
             count (is_post SearchResults)
               (Post AuthLogin :: Post SearchStart :: t)
             = count (is_post SearchResults) t) by reflexivity.
  rewrite Hcount in *.
  destruct (poll_loop_failure w k code body Hk Hc SEARCH_MAX_RETRIES 0
              initial_state) as (Hn & Hr & (t & Et)); [lia | lia |].
  rewrite Hn, Hr, Et. repeat split.
  - f_equal. lia.
  - now exists (Post AuthLogin :: Post SearchStart :: t).
Qed.

Lemma poll_failure_aborts_witness :
  count (is_post SearchResults)
    (trace (search_torrents_api world_poll_500 "ubuntu"
              (Py.Finite 5368709120))) = 2
  /\ (exists t,
         trace (search_torrents_api world_poll_500 "ubuntu"
                  (Py.Finite 5368709120))
         = t ++ [Post SearchResults])
  /\ outcome_of (search_torrents_api world_poll_500 "ubuntu"
                   (Py.Finite 5368709120))
     = Returned [("error", VStr (poll_failure_message 500));
                 ("response", VStr "Internal Server Error")]
  /\ lookup "search_id"
       (poll_failure 500 {| poll_text := "Internal Server Error";
                            poll_json := Malformed "Expecting value" |})
     = None
  /\ lookup "status"
       (poll_failure 500 {| poll_text := "Internal Server Error";
                            poll_json := Malformed "Expecting value" |})
     = None.
Proof.
  apply (poll_failure_aborts world_poll_500 "ubuntu" (Py.Finite 5368709120)
           1 500
           {| poll_text := "Internal Server Error";
              poll_json := Malformed "Expecting value" |}).
  - cbn. lia.
  - reflexivity.
  - discriminate.
Defined.

(** C7 as worded does not hold: after a poll answered 500, the envelope
    returned names neither the job (whose identifier is 7) nor its last
    status. *)
Lemma poll_failure_envelope_lacks_job :
  exists d,
    outcome_of (search_torrents_api world_poll_500 "ubuntu"
                  (Py.Finite 5368709120)) = Returned d
    /\ lookup "error" d = Some (VStr (poll_failure_message 500))
    /\ lookup "search_id" d = None
    /\ lookup "status" d = None
    /\ ~ In (VInt 7) (map snd d).
Proof.
  eexists. split; [reflexivity |].
  repeat split.
  cbn. intros [H | [H | []]]; discriminate.
Qed.

(** ** The stable descending sort *)

Section SortedFacts.
Context {A : Type} (key : A -> Z).

Lemma insert_desc_perm x l : Permutation (Py.insert_desc key x l) (x :: l).
Proof.
  induction l as [| y l IH]; cbn [Py.insert_desc]; [reflexivity |].
  destruct (key x <? key y)%Z; [| reflexivity].
  rewrite IH. apply perm_swap.
Qed.

Lemma sorted_reverse_perm l : Permutation (Py.sorted_reverse key l) l.
Proof.
  induction l as [| x l IH]; cbn [Py.sorted_reverse]; [reflexivity |].
  rewrite insert_desc_perm. now constructor.
Qed.

Lemma insert_desc_sorted x l :
  StronglySorted (desc key) l ->
  StronglySorted (desc key) (Py.insert_desc key x l).
Proof.
  induction 1 as [| y l Hl IH Hy]; cbn [Py.insert_desc].
  - repeat constructor.
  - destruct (key x <? key y)%Z eqn:E.
    + apply Z.ltb_lt in E. constructor; [exact IH |].
      eapply Permutation_Forall; [symmetry; apply insert_desc_perm |].
      constructor; [unfold desc; lia | exact Hy].
    + apply Z.ltb_ge in E. constructor.
      * now constructor.
      * constructor; [exact E |].
        eapply Forall_impl; [| exact Hy]. unfold desc. intros z. lia.
Qed.

Lemma sorted_reverse_sorted l :
  StronglySorted (desc key) (Py.sorted_reverse key l).
Proof.
  induction l as [| x l IH]; cbn [Py.sorted_reverse]; [constructor |].
  now apply insert_desc_sorted.
Qed.

Lemma insert_desc_stable k x l :
  filter (has_key key k) (Py.insert_desc key x l)
  = filter (has_key key k) (x :: l).
Proof.
  induction l as [| y l IH]; cbn [Py.insert_desc]; [reflexivity |].
  destruct (key x <? key y)%Z eqn:E; [| reflexivity].
  apply Z.ltb_lt in E. cbn [filter] in *. rewrite IH. unfold has_key.
  destruct (key y =? k)%Z eqn:Ey; [| reflexivity].
  apply Z.eqb_eq in Ey.
  replace (key x =? k)%Z with false by (symmetry; apply Z.eqb_neq; lia).
  reflexivity.
Qed.

(** Elements with one key come out in the order they went in. *)
Lemma sorted_reverse_stable k l :
  filter (has_key key k) (Py.sorted_reverse key l) = filter (has_key key k) l.
Proof.
  induction l as [| x l IH]; cbn [Py.sorted_reverse]; [reflexivity |].
  rewrite insert_desc_stable. cbn [filter]. now rewrite IH.
Qed.

Lemma filter_nil_all l : (forall k, filter (has_key key k) l = []) -> l = [].
Proof.
  destruct l as [| x l]; [reflexivity |]. intros H.
  specialize (H (key x)). cbn [filter] in H. unfold has_key in H.
  rewrite Z.eqb_refl in H. discriminate.
Qed.

Lemma filter_has_key_head k x l :
  StronglySorted (desc key) (x :: l) -> (key x < k)%Z ->
  filter (has_key key k) (x :: l) = [].
Proof.
  intros Hs Hk. apply StronglySorted_inv in Hs as [_ Hx].
  cbn [filter]. unfold has_key.
  replace (key x =? k)%Z with false by (symmetry; apply Z.eqb_neq; lia).
  induction l as [| y l IH]; [reflexivity |].
  apply Forall_cons_iff in Hx as [Hy Hx]. unfold desc in Hy. cbn [filter].
  replace (key y =? k)%Z with false by (symmetry; apply Z.eqb_neq; lia).
  now apply IH.
Qed.

(** Two descending lists that agree key by key are equal. *)
Lemma sorted_stable_unique l1 :
  forall l2,
    StronglySorted (desc key) l1 -> StronglySorted (desc key) l2 ->
    (forall k, filter (has_key key k) l1 = filter (has_key key k) l2) ->
    l1 = l2.
Proof.
  induction l1 as [| x l1 IH]; intros l2 H1 H2 H.
  - symmetry. apply filter_nil_all. intros k. now rewrite <- H.
  - destruct l2 as [| y l2].
    + apply filter_nil_all. intros k. now rewrite H.
    + assert (Hxy : key x = key y).
      { destruct (Z.lt_trichotomy (key x) (key y)) as [Hlt | [He | Hgt]];
          [| exact He |].
        - pose proof (H (key y)) as Hk.
          rewrite (filter_has_key_head _ _ _ H1 Hlt) in Hk.
          cbn [filter] in Hk. unfold has_key in Hk.
          rewrite Z.eqb_refl in Hk. discriminate.
        - pose proof (H (key x)) as Hk.
          rewrite (filter_has_key_head (key x) y l2 H2) in Hk by lia.
          cbn [filter] in Hk. unfold has_key in Hk.
          rewrite Z.eqb_refl in Hk. discriminate. }
      pose proof (H (key x)) as Hk. cbn [filter] in Hk. unfold has_key in Hk.
      rewrite <- Hxy, Z.eqb_refl in Hk. injection Hk as <- Hk.
      f_equal. apply StronglySorted_inv in H1 as [H1 _].
      apply StronglySorted_inv in H2 as [H2 _].
      apply (IH l2 H1 H2). intros k. specialize (H k).
      cbn [filter] in H.
      destruct (has_key key k x); [now injection H | exact H].
Qed.

(** The result of a stable descending sort is determined: any list that
    is descending by key and keeps the elements of each key in their
    input order is the list [sorted_reverse] computes. *)
Lemma sorted_reverse_unique l l' :
  StronglySorted (desc key) l' ->
  (forall k, filter (has_key key k) l' = filter (has_key key k) l) ->
  l' = Py.sorted_reverse key l.
Proof.
  intros Hs Hk. apply sorted_stable_unique;
    [exact Hs | apply sorted_reverse_sorted |].
  intros k. now rewrite sorted_reverse_stable.
Qed.

Lemma Forall_firstn (P : A -> Prop) n l :
  Forall P l -> Forall P (firstn n l).
Proof.
  intros H. revert n. induction H as [| x l Hx Hl IH]; intros [| n];
    cbn [firstn]; constructor; auto.
Qed.

Lemma firstn_sorted n l :
  StronglySorted (desc key) l -> StronglySorted (desc key) (firstn n l).
Proof.
  intros H. revert n. induction H as [| x l Hl IH Hx]; intros [| n];
    cbn [firstn]; constructor.
  - apply IH.
  - now apply Forall_firstn.
Qed.

Lemma filter_firstn_prefix (p : A -> bool) n l :
  exists rest, filter p l = filter p (firstn n l) ++ rest.
Proof.
  exists (filter p (skipn n l)).
  now rewrite <- filter_app, firstn_skipn.
Qed.

(** An element found in a filtered list sits at the matching place of the
    list itself. *)
Lemma filter_split (p : A -> bool) l :
  forall u x v,
    filter p l = u ++ x :: v ->
    exists l1 l2,
      l = l1 ++ x :: l2 /\ filter p l1 = u /\ filter p l2 = v.
Proof.
  induction l as [| y l IH]; intros u x v H.
  - destruct u; discriminate.
  - cbn [filter] in H. destruct (p y) eqn:Py.
    + destruct u as [| z u].
      * injection H as -> H. exists [], l. repeat split. exact H.
      * injection H as -> H. destruct (IH _ _ _ H) as (l1 & l2 & -> & <- & <-).
        exists (z :: l1), l2. cbn [filter app]. rewrite Py. now repeat split.
    + destruct (IH _ _ _ H) as (l1 & l2 & -> & <- & <-).
      exists (y :: l1), l2. cbn [filter app]. rewrite Py. now repeat split.
Qed.
End SortedFacts.

(** ** The shaping stage *)

Lemma length_filtered_torrents R S :
  List.length (filtered_torrents R S) = count_within S R.
Proof.
  unfold filtered_torrents. induction R as [| r R IH]; [reflexivity |].
  cbn [filter count_within]. unfold get_fileSize at 1.
  destruct (Py.int_le_float _ S); cbn [List.length]; now rewrite IH.
Qed.

(** C3, as the code has it.  [filtered_results] is the number of entries
    whose [fileSize] is at most the ceiling, an entry without [fileSize]
    counting as size 0; such an entry is kept exactly when 0 is at most
    the ceiling. *)
Theorem filter_correct search_id pattern R S :
  lookup "filtered_results" (shape search_id pattern R S)
  = Some (VInt (Z.of_nat (count_within S R)))
  /\ forall r,
       In r R -> fileSize r = None ->
       (In r (filtered_torrents R S) <-> Py.int_le_float 0 S = true).
Proof.
  split.
  - cbn. now rewrite length_filtered_torrents.
  - intros r Hin Hr. unfold filtered_torrents. rewrite filter_In.
    unfold get_fileSize. rewrite Hr. tauto.
Qed.

Lemma filter_correct_witness :
  lookup "filtered_results"
    (shape (Some (IdInt 7)) "ubuntu"
       [{| fileSize := None; nbSeeders := Some 3%Z; other_fields := [] |}]
       (Py.Finite 5368709120))
  = Some (VInt 1)
  /\ In {| fileSize := None; nbSeeders := Some 3%Z; other_fields := [] |}
        (filtered_torrents
           [{| fileSize := None; nbSeeders := Some 3%Z; other_fields := [] |}]
           (Py.Finite 5368709120)).
Proof.
  pose proof (filter_correct (Some (IdInt 7)) "ubuntu"
                [{| fileSize := None; nbSeeders := Some 3%Z;
                    other_fields := [] |}]
                (Py.Finite 5368709120)) as [Hc Hk].
  split; [exact Hc |].
  apply (Hk _ (or_introl eq_refl) eq_refl). reflexivity.
Defined.

(** C3 as worded does not hold: under a negative ceiling an entry
    without [fileSize] does not pass the filter. *)
Lemma missing_size_filtered_out :
  filtered_torrents
    [{| fileSize := None; nbSeeders := Some 3%Z; other_fields := [] |}]
    (Py.Finite (-1)) = []
  /\ ~ (forall R S r,
          In r R -> fileSize r = None -> In r (filtered_torrents R S)).
Proof.
  split; [reflexivity |]. intros H.
  apply (H [{| fileSize := None; nbSeeders := Some 3%Z; other_fields := [] |}]
           (Py.Finite (-1)) _ (or_introl eq_refl) eq_refl).
Qed.

(** The key the code ranks by is the field [nbSeeders], 0 when absent. *)
Lemma get_nbSeeders_is_field (r : TorrentResult) :
  get_nbSeeders r = seeders_field r.
Proof. destruct r as [size [n |] others]; reflexivity. Qed.

Lemma desc_field_sorted (l : list TorrentResult) :
  StronglySorted (desc get_nbSeeders) l ->
  StronglySorted (desc seeders_field) l.
Proof.
  induction 1 as [| x l Hl IH Hx]; constructor; [exact IH |].
  eapply Forall_impl; [| exact Hx]. unfold desc. intros y.
  now rewrite !get_nbSeeders_is_field.
Qed.

Lemma has_key_field (k : Z) (l : list TorrentResult) :
  filter (has_key get_nbSeeders k) l = filter (has_key seeders_field k) l.
Proof.
  apply filter_ext. intros r. unfold has_key.
  now rewrite get_nbSeeders_is_field.
Qed.

(** C4. The [results] of the envelope are the first ten rows of a ranking
    of the filtered list: a reordering of it that stands in non-increasing
    order of the field [nbSeeders] (0 when absent) and in which the rows
    with one number of seeders keep the order they have in the filtered
    list.  So the results are in non-increasing order of [nbSeeders]; the
    rows of the results with one number of seeders are the first such rows
    of the filtered list, in its order; and whenever [x] stands before [y]
    in the results with as many seeders, [x] stands before [y] in the
    filtered list. *)
Theorem rank_stable search_id pattern R S :
  exists results ranked,
    lookup "results" (shape search_id pattern R S) = Some (VTorrents results)
    /\ Permutation ranked (filtered_torrents R S)
    /\ StronglySorted (desc seeders_field) ranked
    /\ (forall k,
           filter (has_key seeders_field k) ranked
           = filter (has_key seeders_field k) (filtered_torrents R S))
    /\ results = firstn 10 ranked
    /\ StronglySorted (desc seeders_field) results
    /\ (forall k, exists rest,
           filter (has_key seeders_field k) (filtered_torrents R S)
           = filter (has_key seeders_field k) results ++ rest)
    /\ (forall a x b y c,
           results = a ++ x :: b ++ y :: c ->
           seeders_field x = seeders_field y ->
           exists a' b' c', filtered_torrents R S = a' ++ x :: b' ++ y :: c').
Proof.
  exists (top_10 (sorted_torrents (filtered_torrents R S))),
         (sorted_torrents (filtered_torrents R S)).
  split; [reflexivity |].
  assert (Hst : forall k, exists rest,
             filter (has_key seeders_field k) (filtered_torrents R S)
             = filter (has_key seeders_field k)
                 (top_10 (sorted_torrents (filtered_torrents R S))) ++ rest).
  { intros k. unfold top_10, sorted_torrents. rewrite <- !has_key_field.
    rewrite <- (sorted_reverse_stable get_nbSeeders k (filtered_torrents R S)).
    apply filter_firstn_prefix. }
  split; [apply sorted_reverse_perm |].
  split; [apply desc_field_sorted, sorted_reverse_sorted |].
  split.
  { intros k. unfold sorted_torrents. rewrite <- !has_key_field.
    apply sorted_reverse_stable. }
  split; [reflexivity |].
  split; [| split; [exact Hst |]].
  - apply desc_field_sorted, firstn_sorted, sorted_reverse_sorted.
  - intros a x b y c E Hxy.
    destruct (Hst (seeders_field x)) as (rest & Hrest).
    assert (Hx : has_key seeders_field (seeders_field x) x = true)
      by apply Z.eqb_refl.
    assert (Hy : has_key seeders_field (seeders_field x) y = true)
      by (unfold has_key; rewrite Hxy; apply Z.eqb_refl).
    rewrite E in Hrest. rewrite filter_app in Hrest. cbn [filter] in Hrest.
    rewrite Hx, filter_app in Hrest. cbn [filter] in Hrest.
    rewrite Hy in Hrest.
    rewrite <- app_assoc in Hrest. cbn [app] in Hrest.
    apply filter_split in Hrest as (l1 & l2 & El & _ & H2).
    rewrite <- app_assoc in H2. cbn [app] in H2.
    apply filter_split in H2 as (l3 & l4 & El2 & _ & _).
    exists l1, l3, l4. now rewrite El, El2.
Qed.

Lemma rank_stable_witness :
  exists a' b' c',
    filtered_torrents tied_rows (Py.Finite 5368709120)
    = a' ++ {| fileSize := Some 10%Z; nbSeeders := Some 5%Z;
               other_fields := [("fileName", "first")] |}
         :: b' ++ {| fileSize := Some 10%Z; nbSeeders := Some 5%Z;
                     other_fields := [("fileName", "third")] |}
         :: c'.
Proof.
  destruct (rank_stable (Some (IdInt 7)) "ubuntu" tied_rows
              (Py.Finite 5368709120))
    as (results & ranked & Hl & _ & _ & _ & _ & _ & _ & H).
  injection Hl as Hl.
  apply (H [{| fileSize := Some 10%Z; nbSeeders := Some 9%Z;
               other_fields := [("fileName", "second")] |}]
           _ [] _ []).
  - rewrite <- Hl. reflexivity.
  - reflexivity.
Defined.

Lemma shape_invariant search_id pattern R S :
  envelope_invariant (shape search_id pattern R S).
Proof.
  exists (List.length R), (List.length (filtered_torrents R S)),
         (top_10 (sorted_torrents (filtered_torrents R S))).
  assert (Hlen : List.length (top_10 (sorted_torrents (filtered_torrents R S)))
                 = Nat.min 10 (List.length (filtered_torrents R S))).
  { unfold top_10, sorted_torrents. rewrite length_firstn. f_equal.
    apply Permutation_length, sorted_reverse_perm. }
  repeat split.
  - unfold filtered_torrents. apply filter_length_le.
  - rewrite Hlen. lia.
  - rewrite Hlen. lia.
  - rewrite Hlen. lia.
  - apply desc_field_sorted, firstn_sorted, sorted_reverse_sorted.
Qed.

(** The loop executes [return] only on the envelope of a failed poll. *)
Lemma poll_loop_Return w attempts :
  forall st d,
    snd (poll_loop w attempts st) = Return d ->
    exists code body, d = poll_failure code body.
Proof.
  induction attempts as [| a rest IH]; intros st d H; [discriminate |].
  destruct (iteration_cases w a) as [p Hp Hb | p Hp Hs Ht | Hp].
  - rewrite (poll_loop_break _ _ _ _ _ Hp Hb) in H. discriminate.
  - rewrite (poll_loop_continue _ _ _ _ _ Hp Hs Ht) in H. eapply IH, H.
  - rewrite (poll_loop_no_page _ _ _ _ Hp) in H. cbn [snd] in H.
    destruct (poll_reply w a) as [msg | code body]; [discriminate |].
    destruct (code =? 200)%Z.
    + destruct (poll_json body); discriminate.
    + injection H as <-. now exists code, body.
Qed.

(** C5. Whatever the result list and the ceiling, the envelope the shaping
    stage builds has [filtered_results] at most [total_results], at most
    min([filtered_results], 10) results (exactly that many), hence never
    more than 10, in non-increasing order of the field [nbSeeders] (0 when
    absent); and every envelope without an [error] key that
    [search_torrents_api] returns is such an envelope. *)
Theorem envelope_invariant_holds :
  (forall search_id pattern R S,
      envelope_invariant (shape search_id pattern R S))
  /\ (forall w pattern max_size_bytes d,
         outcome_of (search_torrents_api w pattern max_size_bytes)
         = Returned d ->
         lookup "error" d = None ->
         envelope_invariant d).
Proof.
  split; [exact shape_invariant |].
  intros w pattern max_size_bytes d Hd He.
  destruct (search_torrents_api_cases w pattern max_size_bytes)
    as [(msg & Hl & E) | [(c0 & c & Hl & E) | [(c0 & c & d' & Hl & Herr & E)
       | (search_id & Hl & Hs)]]].
  - rewrite E in Hd. discriminate.
  - rewrite E in Hd. injection Hd as <-. discriminate.
  - rewrite E in Hd. injection Hd as <-. congruence.
  - rewrite (search_torrents_api_started _ _ _ _ Hl Hs) in Hd.
    unfold outcome_of in Hd. cbn [snd] in Hd.
    destruct (snd (poll_loop w (seq 0 SEARCH_MAX_RETRIES) initial_state))
      as [exit | d' | msg] eqn:E.
    + injection Hd as <-. unfold after_loop in *.
      destruct (negb (truthy_list (torrents (fst exit)))
                && negb (is_Stopped (status (fst exit)))); [discriminate |].
      apply shape_invariant.
    + injection Hd as <-. apply poll_loop_Return in E as (code & body & ->).
      discriminate.
    + injection Hd as <-. discriminate.
Qed.

Lemma envelope_invariant_holds_witness :
  envelope_invariant
    (shape (Some (IdInt 7)) "ubuntu" scenario_A (Py.Finite 5368709120)).
Proof.
  apply (proj2 envelope_invariant_holds world_scenario_A "ubuntu"
           (Py.Finite 5368709120)).
  - reflexivity.
  - reflexivity.
Defined.

(** ** The scenarios of the specification *)

(** Scenario A: of three rows the one of 10 GiB is dropped, the two others
    are ranked 5 seeders, then 1. *)
Example scenario_A_envelope :
  search_torrents_api world_scenario_A "ubuntu" (Py.Finite 5368709120) =
    ([Post AuthLogin; Post SearchStart; Post SearchResults],
     Return [("search_id", VInt 7);
             ("pattern", VStr "ubuntu");
             ("total_results", VInt 3);
             ("filtered_results", VInt 2);
             ("results", VTorrents [row (1 * GiB) 5; row (2 * GiB) 1])]).
Proof. vm_compute. reflexivity. Qed.

(** Scenario B: of fifteen rows with 1 to 15 seeders, the ten with 15 down
    to 6 seeders are kept. *)
Example scenario_B_envelope :
  shape (Some (IdInt 7)) "ubuntu" scenario_B Py.PosInf =
    [("search_id", VInt 7);
     ("pattern", VStr "ubuntu");
     ("total_results", VInt 15);
     ("filtered_results", VInt 15);
     ("results",
      VTorrents (map (fun n => row GiB n)
                     [15; 14; 13; 12; 11; 10; 9; 8; 7; 6]%Z))].
Proof. vm_compute. reflexivity. Qed.

(** Scenario C: a login answered 403 ends the call after that one request,
    with the login failure envelope. *)
Example scenario_C_envelope :
  search_torrents_api
    {| login_reply := Response 403 []; start_reply := ok_start;
       poll_reply := fun _ => ok_page "Stopped" [] |}
    "ubuntu" (Py.Finite 5368709120) =
    ([Post AuthLogin], Return [("error", VStr login_failure_message)]).
Proof. reflexivity. Qed.

(** Rows with equal seeders keep their order. *)
Example tied_rows_ranked :
  map other_fields
    (top_10 (sorted_torrents (filtered_torrents tied_rows Py.PosInf)))
  = [[("fileName", "second")]; [("fileName", "first")];
     [("fileName", "third")]].
Proof. reflexivity. Qed.

(** The message of a poll answered 500 names that code. *)
Example poll_failure_message_500 :
  poll_failure_message 500 = "获取搜索结果失败: 状态码 500".
Proof. reflexivity. Qed.

(** A service that never has results: ten polls, nine delays, none after
    the last poll, then the timeout envelope with the last status. *)
Example timeout_run :
  search_torrents_api world_running_empty "ubuntu" (Py.Finite 5368709120) =
    ([Post AuthLogin; Post SearchStart;
      Post SearchResults; Sleep 1; Post SearchResults; Sleep 1;
      Post SearchResults; Sleep 1; Post SearchResults; Sleep 1;
      Post SearchResults; Sleep 1; Post SearchResults; Sleep 1;
      Post SearchResults; Sleep 1; Post SearchResults; Sleep 1;
      Post SearchResults; Sleep 1; Post SearchResults],
     Return [("error", VStr timeout_message);
             ("search_id", VInt 7);
             ("status", VStr "Running")]).
Proof. reflexivity. Qed.

(** A poll answered 500 at the second attempt ends the call there. *)
Example poll_500_run :
  search_torrents_api world_poll_500 "ubuntu" (Py.Finite 5368709120) =
    ([Post AuthLogin; Post SearchStart;
      Post SearchResults; Sleep 1; Post SearchResults],
     Return [("error", VStr (poll_failure_message 500));
             ("response", VStr "Internal Server Error")]).
Proof. reflexivity. Qed.

(** * Further properties of [search_torrents_api] *)

(** ** The stages before the loop *)

(** A login answered with a status code other than 200, or with 200 and an
    empty cookie jar, ends the call after that one request with the login
    failure envelope: no search is started. *)
Theorem login_rejected w pattern max_size_bytes code c :
  login_reply w = Response code c ->
  code <> 200%Z \/ c = [] ->
  search_torrents_api w pattern max_size_bytes =
    ([Post AuthLogin], Return [("error", VStr login_failure_message)]).
Proof.
  intros Hl H. unfold search_torrents_api, login_to_qbittorrent.
  rewrite Hl. unfold post, bind. cbn [fst snd].
  destruct (code =? 200)%Z eqn:Hc.
  - destruct H as [H | ->]; [apply Z.eqb_eq in Hc; contradiction |].
    reflexivity.
  - reflexivity.
Qed.

Lemma login_rejected_witness :
  search_torrents_api
    {| login_reply := Response 200 []; start_reply := ok_start;
       poll_reply := fun _ => ok_page "Stopped" [] |}
    "ubuntu" (Py.Finite 5368709120) =
    ([Post AuthLogin], Return [("error", VStr login_failure_message)]).
Proof.
  apply (login_rejected _ "ubuntu" (Py.Finite 5368709120) 200 []).
  - reflexivity.
  - right. reflexivity.
Defined.

(** The start of [search_try_block] once the login succeeded. *)
Lemma search_torrents_api_logged_in w pattern max_size_bytes :
  login_ok w ->
  search_torrents_api w pattern max_size_bytes =
    try_except
      (let (t, r) := search_try_block w pattern max_size_bytes in
       (Post AuthLogin :: t, r))
      (fun e => return_ [("error", VStr (exception_message e))]).
Proof.
  intros (c & Hl & Hc). destruct c as [| c0 c']; [congruence |].
  unfold search_torrents_api, login_to_qbittorrent. rewrite Hl.
  unfold post, bind, ret, try_except, return_. cbn [fst snd].
  destruct (search_try_block w pattern max_size_bytes) as [t [[] | d | m]];
    reflexivity.
Qed.

(** A start request answered with a status code other than 200 ends the
    call after two requests, with an envelope that names the status code
    and carries the text of the response; no poll is made. *)
Theorem start_rejected w pattern max_size_bytes code body :
  login_ok w ->
  start_reply w = Response code body ->
  code <> 200%Z ->
  search_torrents_api w pattern max_size_bytes =
    ([Post AuthLogin; Post SearchStart],
     Return [("error", VStr (start_failure_message code));
             ("response", VStr (start_text body))]).
Proof.
  intros Hl Hs Hc. apply Z.eqb_neq in Hc.
  rewrite (search_torrents_api_logged_in _ _ _ Hl).
  unfold search_try_block. rewrite Hs. unfold post, bind. cbn [fst snd].
  rewrite Hc. reflexivity.
Qed.

Lemma start_rejected_witness :
  search_torrents_api world_start_409 "ubuntu" (Py.Finite 5368709120) =
    ([Post AuthLogin; Post SearchStart],
     Return [("error", VStr (start_failure_message 409));
             ("response", VStr "Conflict")]).
Proof.
  apply (start_rejected world_start_409 "ubuntu" (Py.Finite 5368709120) 409
           {| start_text := "Conflict";
              start_json := Malformed "Expecting value" |}).
  - exists [("SID", "abc")]. split; [reflexivity | discriminate].
  - reflexivity.
  - discriminate.
Defined.

(** A start request answered 200 whose identifier is absent, the integer 0
    or the empty string is reported as a missing identifier; no poll is
    made. *)
Theorem falsy_search_id_rejected w pattern max_size_bytes text search_id :
  login_ok w ->
  start_reply w =
    Response 200 {| start_text := text; start_json := Decoded search_id |} ->
  search_id = None \/ search_id = Some (IdInt 0)
  \/ search_id = Some (IdStr "") ->
  search_torrents_api w pattern max_size_bytes =
    ([Post AuthLogin; Post SearchStart],
     Return [("error", VStr missing_id_message);
             ("response", VSearchResult search_id)]).
Proof.
  intros Hl Hs Hid.
  assert (Hf : truthy_id search_id = false)
    by (destruct Hid as [-> | [-> | ->]]; reflexivity).
  rewrite (search_torrents_api_logged_in _ _ _ Hl).
  unfold search_try_block. rewrite Hs. unfold post, bind, json.
  cbn [fst snd negb Z.eqb Pos.eqb start_json]. rewrite Hf. reflexivity.
Qed.

Lemma falsy_search_id_rejected_witness :
  search_torrents_api world_id_zero "ubuntu" (Py.Finite 5368709120) =
    ([Post AuthLogin; Post SearchStart],
     Return [("error", VStr missing_id_message);
             ("response", VSearchResult (Some (IdInt 0)))]).
Proof.
  apply (falsy_search_id_rejected world_id_zero "ubuntu"
           (Py.Finite 5368709120) "{id: 0}" (Some (IdInt 0))).
  - exists [("SID", "abc")]. split; [reflexivity | discriminate].
  - reflexivity.
  - right. left. reflexivity.
Defined.

(** When the start request cannot be sent, or is answered 200 with a body
    that cannot be read, the exception is caught: the call returns the
    envelope of the [except] clause with the text of the exception, after
    two requests. *)
Theorem start_exception_caught w pattern max_size_bytes msg :
  login_ok w ->
  start_reply w = TransportError msg
  \/ (exists text,
         start_reply w =
           Response 200 {| start_text := text;
                           start_json := Malformed msg |}) ->
  search_torrents_api w pattern max_size_bytes =
    ([Post AuthLogin; Post SearchStart],
     Return [("error", VStr (exception_message msg))]).
Proof.
  intros Hl [Hs | (text & Hs)];
    rewrite (search_torrents_api_logged_in _ _ _ Hl);
    unfold search_try_block; rewrite Hs; reflexivity.
Qed.

Lemma start_exception_caught_witness :
  search_torrents_api world_start_unreachable "ubuntu"
    (Py.Finite 5368709120) =
    ([Post AuthLogin; Post SearchStart],
     Return [("error",
              VStr (exception_message "All connection attempts failed"))]).
Proof.
  apply start_exception_caught.
  - exists [("SID", "abc")]. split; [reflexivity | discriminate].
  - left. reflexivity.
Defined.

(** ** The loop as a whole *)

Lemma count_polling j :
  count (is_post SearchResults) (polling j) = S j
  /\ count is_sleep (polling j) = j.
Proof.
  unfold count. induction j as [| j [IH1 IH2]]; [now split |].
  cbn [polling filter is_post is_sleep List.length]. now rewrite IH1, IH2.
Qed.

(** The loop reaches an accepting attempt [n] through attempts that all
    deliver a page and go on. *)
Lemma poll_loop_reaches w n p :
  page_at w n = Some p -> accepts n p = true -> n < SEARCH_MAX_RETRIES ->
  forall j a len st,
    a + j = n -> a + len = SEARCH_MAX_RETRIES ->
    (forall k, a <= k < n ->
               exists q, page_at w k = Some q /\ accepts k q = false) ->
    poll_loop w (seq a len) st = (polling j, Value (state_of p, Break n)).
Proof.
  intros Hp Ha Hn. induction j as [| j IH]; intros a len st Haj Hlen Hgo.
  - assert (a = n) by lia. subst a.
    destruct len as [| len]; [lia |]. cbn [seq polling].
    now apply poll_loop_break.
  - destruct len as [| len]; [lia |]. cbn [seq polling].
    destruct (Hgo a) as (q & Hq & Hacc); [lia |].
    unfold accepts in Hacc. apply orb_false_iff in Hacc as [Hs Ht].
    rewrite (poll_loop_continue _ _ _ _ _ Hq Hs Ht).
    replace (a <? SEARCH_MAX_RETRIES - 1)%nat with true
      by (symmetry; apply Nat.ltb_lt; lia).
    rewrite (IH (S a) len (state_of q)); [reflexivity | lia | lia |].
    intros k Hk. apply Hgo. lia.
Qed.

(** The loop runs out when no attempt accepts. *)
Lemma poll_loop_runs_out w :
  (forall k, k < SEARCH_MAX_RETRIES ->
             exists q, page_at w k = Some q /\ accepts k q = false) ->
  forall len a st,
    a + S len = SEARCH_MAX_RETRIES ->
    exists q,
      page_at w (SEARCH_MAX_RETRIES - 1) = Some q
      /\ poll_loop w (seq a (S len)) st
         = (polling len, Value (state_of q, Exhausted)).
Proof.
  intros Hgo. induction len as [| len IH]; intros a st Hlen.
  - destruct (Hgo a) as (q & Hq & Hacc); [lia |].
    exists q. replace (SEARCH_MAX_RETRIES - 1) with a by lia.
    split; [exact Hq |]. cbn [seq polling].
    unfold accepts in Hacc. apply orb_false_iff in Hacc as [Hs Ht].
    rewrite (poll_loop_continue _ _ _ _ _ Hq Hs Ht).
    replace (a <? SEARCH_MAX_RETRIES - 1)%nat with false
      by (symmetry; apply Nat.ltb_ge; lia).
    reflexivity.
  - destruct (Hgo a) as (q & Hq & Hacc); [lia |].
    destruct (IH (S a) (state_of q)) as (q9 & Hq9 & HL); [lia |].
    exists q9. split; [exact Hq9 |].
    change (seq a (S (S len))) with (a :: seq (S a) (S len)).
    unfold accepts in Hacc. apply orb_false_iff in Hacc as [Hs Ht].
    rewrite (poll_loop_continue _ _ _ _ _ Hq Hs Ht), HL.
    replace (a <? SEARCH_MAX_RETRIES - 1)%nat with true
      by (symmetry; apply Nat.ltb_lt; lia).
    reflexivity.
Qed.

(** What a [break] of the loop tells. *)
Lemma poll_loop_Break_inv w :
  forall len a st t st' n,
    a + len = SEARCH_MAX_RETRIES ->
    poll_loop w (seq a len) st = (t, Value (st', Break n)) ->
    a <= n < SEARCH_MAX_RETRIES
    /\ t = polling (n - a)
    /\ exists p,
         page_at w n = Some p /\ st' = state_of p /\ accepts n p = true
         /\ forall k, a <= k < n ->
                      exists q, page_at w k = Some q /\ accepts k q = false.
Proof.
  induction len as [| len IH]; intros a st t st' n Hlen H; [discriminate |].
  cbn [seq] in H.
  destruct (iteration_cases w a) as [p Hp Hb | p Hp Hs Ht | Hp].
  - rewrite (poll_loop_break _ _ _ _ _ Hp Hb) in H.
    injection H as <- <- <-. replace (a - a) with 0 by lia.
    repeat split; try lia. exists p. repeat split; auto. intros k Hk. lia.
  - rewrite (poll_loop_continue _ _ _ _ _ Hp Hs Ht) in H.
    destruct (poll_loop w (seq (S a) len) (state_of p)) as [t' r] eqn:E.
    cbn [fst snd] in H. injection H as <- ->.
    destruct (IH (S a) (state_of p) t' st' n) as (Hn & Ht' & q & Hq);
      [lia | exact E |].
    split; [lia |]. split.
    + assert (Hlt : (a <? 9)%nat = true)
        by (apply Nat.ltb_lt; unfold SEARCH_MAX_RETRIES in *; lia).
      change (SEARCH_MAX_RETRIES - 1) with 9. rewrite Hlt.
      replace (n - a) with (S (n - S a)) by lia. cbn [polling app].
      now rewrite Ht'.
    + exists q. destruct Hq as (Hq1 & Hq2 & Hq3 & Hq4).
      repeat split; auto. intros k Hk.
      destruct (Nat.eq_dec k a) as [-> | Hne].
      * exists p. split; [exact Hp |]. unfold accepts. now rewrite Hs, Ht.
      * apply Hq4. lia.
  - rewrite (poll_loop_no_page _ _ _ _ Hp) in H. unfold page_at in Hp.
    destruct (poll_reply w a) as [msg | code body]; [discriminate |].
    destruct (code =? 200)%Z; [| discriminate].
    destruct (poll_json body); discriminate.
Qed.

(** A poll that was made and delivered no page is the last event of the
    loop, which ends the way that poll ends. *)
Lemma poll_loop_abort w k :
  page_at w k = None ->
  forall len a st,
    a + len = SEARCH_MAX_RETRIES ->
    a <= k ->
    k < a + count (is_post SearchResults) (fst (poll_loop w (seq a len) st)) ->
    poll_loop w (seq a len) st =
      (polling (k - a),
       match poll_reply w k with
       | TransportError msg => Raise msg
       | Response code body =>
           if (code =? 200)%Z then
             match poll_json body with
             | Malformed msg => Raise msg
             | Decoded p => Value (state_of p, Break k)
             end
           else Return (poll_failure code body)
       end).
Proof.
  intros Hk. induction len as [| len IH]; intros a st Hlen Hak Hlt.
  - cbn in Hlt. lia.
  - cbn [seq] in *.
    destruct (iteration_cases w a) as [p Hp Hb | p Hp Hs Ht | Hp].
    + rewrite (poll_loop_break _ _ _ _ _ Hp Hb) in Hlt. cbn in Hlt.
      assert (k = a) by lia. subst k. congruence.
    + assert (Hne : k <> a) by (intros ->; congruence).
      rewrite (poll_loop_continue _ _ _ _ _ Hp Hs Ht) in *.
      cbn [fst snd] in Hlt.
      assert (Hcount : forall t,
                 count (is_post SearchResults)
                   (Post SearchResults
                      :: (if (a <? SEARCH_MAX_RETRIES - 1)%nat
                          then [Sleep SEARCH_RETRY_DELAY_SECONDS] else [])
                      ++ t)
                 = S (count (is_post SearchResults) t)).
      { intros t. unfold count.
        destruct (a <? SEARCH_MAX_RETRIES - 1)%nat; reflexivity. }
      rewrite Hcount in Hlt.
      destruct len as [| len]; [cbn in Hlt; lia |].
      assert (Hlt9 : (a <? SEARCH_MAX_RETRIES - 1)%nat = true)
        by (apply Nat.ltb_lt; lia).
      rewrite Hlt9.
      rewrite (IH (S a) (state_of p)); [| lia | lia | lia].
      cbn [fst snd app]. replace (k - a) with (S (k - S a)) by lia.
      reflexivity.
    + rewrite (poll_loop_no_page _ _ _ _ Hp) in *. cbn in Hlt.
      assert (k = a) by lia. subst k. now rewrite Nat.sub_diag.
Qed.

(** Whenever the function gets to the loop, the login and the start
    succeeded. *)
Lemma polled_then_started w pattern max_size_bytes :
  0 < count (is_post SearchResults)
        (trace (search_torrents_api w pattern max_size_bytes)) ->
  exists search_id, login_ok w /\ start_ok w search_id.
Proof.
  intros H.
  destruct (search_torrents_api_cases w pattern max_size_bytes)
    as [(msg & Hl & E) | [(c0 & c & Hl & E) | [(c0 & c & d & Hl & Herr & E)
       | Hok]]]; [| | | exact Hok].
  all: rewrite E in H; cbn in H; lia.
Qed.

(** When a poll that the function made cannot be sent, or is answered 200
    with a body that cannot be read, that poll is the last event of the
    call and the exception is caught: the call returns the envelope of the
    [except] clause with the text of the exception. *)
Theorem poll_exception_caught w pattern max_size_bytes k msg :
  k < count (is_post SearchResults)
        (trace (search_torrents_api w pattern max_size_bytes)) ->
  poll_reply w k = TransportError msg
  \/ (exists text,
         poll_reply w k =
           Response 200 {| poll_text := text; poll_json := Malformed msg |}) ->
  search_torrents_api w pattern max_size_bytes =
    (Post AuthLogin :: Post SearchStart :: polling k,
     Return [("error", VStr (exception_message msg))]).
Proof.
  intros Hlt Hk.
  destruct (polled_then_started w pattern max_size_bytes) as (sid & Hl & Hs);
    [lia |].
  rewrite (search_torrents_api_started _ _ _ _ Hl Hs) in *.
  unfold trace in Hlt. cbn [fst] in Hlt.
  assert (Hnone : page_at w k = None).
  { unfold page_at. destruct Hk as [-> | (text & ->)]; reflexivity. }
  rewrite (poll_loop_abort w k Hnone SEARCH_MAX_RETRIES 0 initial_state
             eq_refl (Nat.le_0_l k) Hlt).
  cbn [fst snd]. rewrite Nat.sub_0_r.
  destruct Hk as [-> | (text & ->)]; reflexivity.
Qed.

Lemma poll_exception_caught_witness :
  search_torrents_api world_poll_garbled "ubuntu" (Py.Finite 5368709120) =
    (Post AuthLogin :: Post SearchStart :: polling 2,
     Return [("error", VStr (exception_message "Expecting value"))]).
Proof.
  apply (poll_exception_caught world_poll_garbled "ubuntu"
           (Py.Finite 5368709120) 2 "Expecting value").
  - cbn. lia.
  - right. exists "<html>". reflexivity.
Defined.

(** The first attempt that accepts decides the call: when the polls before
    attempt [n] all deliver a page on which the loop goes on, and attempt
    [n] delivers a page that says 'Stopped' or, from the third attempt on,
    holds results, the call makes [n + 1] polls with a delay between them
    and returns the envelope shaped from that page alone. *)
Theorem first_accepting_attempt_decides w pattern max_size_bytes search_id
    n p :
  login_ok w -> start_ok w search_id ->
  n < SEARCH_MAX_RETRIES ->
  (forall k, k < n -> exists q, page_at w k = Some q /\ accepts k q = false) ->
  page_at w n = Some p ->
  accepts n p = true ->
  search_torrents_api w pattern max_size_bytes =
    (Post AuthLogin :: Post SearchStart :: polling n,
     Return (shape search_id pattern (page_results p) max_size_bytes)).
Proof.
  intros Hl Hs Hn Hgo Hp Ha.
  rewrite (search_torrents_api_started _ _ _ _ Hl Hs).
  rewrite (poll_loop_reaches w n p Hp Ha Hn n 0 SEARCH_MAX_RETRIES
             initial_state eq_refl eq_refl).
  2: { intros k Hk. apply Hgo. lia. }
  cbn [fst snd]. unfold after_loop. cbn [state_of torrents status].
  unfold accepts in Ha.
  destruct (is_Stopped (page_status p)).
  - now rewrite andb_false_r.
  - cbn [orb] in Ha. apply andb_true_iff in Ha as [Ht _]. now rewrite Ht.
Qed.

Lemma first_accepting_attempt_decides_witness :
  search_torrents_api world_results_at_4 "ubuntu" (Py.Finite 5368709120) =
    (Post AuthLogin :: Post SearchStart :: polling 4,
     Return (shape (Some (IdInt 7)) "ubuntu" [row 1 5; row 2 8]
               (Py.Finite 5368709120))).
Proof.
  apply (first_accepting_attempt_decides world_results_at_4 "ubuntu"
           (Py.Finite 5368709120) (Some (IdInt 7)) 4
           {| page_status := Some "Running";
              page_results := [row 1 5; row 2 8] |}).
  - exists [("SID", "abc")]. split; [reflexivity | discriminate].
  - exists "{id: 7}". split; reflexivity.
  - unfold SEARCH_MAX_RETRIES. lia.
  - intros k Hk.
    exists {| page_status := Some "Running"; page_results := [] |}.
    destruct k as [| [| [| [| k]]]]; try (split; reflexivity). lia.
  - reflexivity.
  - reflexivity.
Defined.

(** Results are replaced, not gathered: when no attempt accepts (each of
    the ten polls delivers a page that does not say 'Stopped', and from
    the third poll on the pages are empty) the call times out, whatever
    results the first two polls held. *)
Theorem results_of_first_polls_lost w pattern max_size_bytes search_id :
  login_ok w -> start_ok w search_id ->
  (forall k, k < SEARCH_MAX_RETRIES ->
             exists q, page_at w k = Some q /\ accepts k q = false) ->
  exists q9,
    page_at w 9 = Some q9
    /\ search_torrents_api w pattern max_size_bytes =
         (Post AuthLogin :: Post SearchStart :: polling 9,
          Return (timeout_envelope search_id (page_status q9))).
Proof.
  intros Hl Hs Hgo.
  destruct (poll_loop_runs_out w Hgo 9 0 initial_state eq_refl)
    as (q9 & Hq9 & HL).
  exists q9. split; [exact Hq9 |].
  rewrite (search_torrents_api_started _ _ _ _ Hl Hs).
  change (seq 0 SEARCH_MAX_RETRIES) with (seq 0 10). rewrite HL.
  cbn [fst snd]. unfold after_loop. cbn [state_of torrents status].
  destruct (Hgo 9) as (q & Hq & Hacc); [unfold SEARCH_MAX_RETRIES; lia |].
  change (SEARCH_MAX_RETRIES - 1) with 9 in Hq9.
  assert (q = q9) as -> by congruence.
  unfold accepts in Hacc. apply orb_false_iff in Hacc as [Hst Ht].
  rewrite andb_true_r in Ht. rewrite Hst, Ht. reflexivity.
Qed.

Lemma results_of_first_polls_lost_witness :
  exists q9,
    page_at world_results_then_nothing 9 = Some q9
    /\ search_torrents_api world_results_then_nothing "ubuntu"
         (Py.Finite 5368709120) =
         (Post AuthLogin :: Post SearchStart :: polling 9,
          Return (timeout_envelope (Some (IdInt 7)) (page_status q9))).
Proof.
  apply results_of_first_polls_lost.
  - exists [("SID", "abc")]. split; [reflexivity | discriminate].
  - exists "{id: 7}". split; reflexivity.
  - intros k Hk.
    destruct k as [| [| k]].
    + eexists. split; reflexivity.
    + eexists. split; reflexivity.
    + eexists. split; reflexivity.
Defined.

(** Every success envelope comes from an accepting attempt: if the call
    returns an envelope without an [error] key, some attempt [n] delivered
    a page that the loop accepted, no earlier attempt did, [n + 1] polls
    were made, and the envelope is the one shaped from that page. *)
Theorem success_comes_from_accepting_attempt w pattern max_size_bytes d :
  outcome_of (search_torrents_api w pattern max_size_bytes) = Returned d ->
  lookup "error" d = None ->
  exists search_id n p,
    start_ok w search_id
    /\ n < SEARCH_MAX_RETRIES
    /\ page_at w n = Some p
    /\ accepts n p = true
    /\ (forall k, k < n ->
                  exists q, page_at w k = Some q /\ accepts k q = false)
    /\ trace (search_torrents_api w pattern max_size_bytes)
       = Post AuthLogin :: Post SearchStart :: polling n
    /\ d = shape search_id pattern (page_results p) max_size_bytes.
Proof.
  intros Hd He.
  destruct (search_torrents_api_cases w pattern max_size_bytes)
    as [(msg & Hl & E) | [(c0 & c & Hl & E) | [(c0 & c & d' & Hl & Herr & E)
       | (search_id & Hl & Hs)]]].
  - rewrite E in Hd. discriminate.
  - rewrite E in Hd. injection Hd as <-. discriminate.
  - rewrite E in Hd. injection Hd as <-. congruence.
  - rewrite (search_torrents_api_started _ _ _ _ Hl Hs) in *.
    unfold outcome_of, trace in *. cbn [fst snd] in *.
    destruct (poll_loop w (seq 0 SEARCH_MAX_RETRIES) initial_state)
      as [t [[st' exit] | d' | msg]] eqn:E; cbn [fst snd] in *.
    + injection Hd as <-. destruct exit as [n |].
      * destruct (poll_loop_Break_inv w SEARCH_MAX_RETRIES 0 _ _ _ _
                    eq_refl E)
          as (Hn & Ht & p & Hp & -> & Ha & Hgo).
        exists search_id, n, p. rewrite Nat.sub_0_r in Ht.
        repeat split; auto; try lia.
        -- intros k Hk. apply Hgo. lia.
        -- now rewrite Ht.
        -- unfold after_loop in *. cbn [state_of torrents status] in *.
           destruct (negb (truthy_list (page_results p))
                     && negb (is_Stopped (page_status p)));
             [discriminate | reflexivity].
      * destruct (poll_loop_exhausted _ _ _ _ _ E) as (Ht & Hst);
          [discriminate | cbn; lia |].
        unfold after_loop in He. rewrite Ht, Hst in He. discriminate.
    + injection Hd as <-.
      assert (Hr : snd (poll_loop w (seq 0 SEARCH_MAX_RETRIES) initial_state)
                   = Return d') by now rewrite E.
      apply poll_loop_Return in Hr as (code & body & ->). discriminate.
    + injection Hd as <-. discriminate.
Qed.

Lemma success_comes_from_accepting_attempt_witness :
  exists search_id n p,
    start_ok world_scenario_A search_id
    /\ n < SEARCH_MAX_RETRIES
    /\ page_at world_scenario_A n = Some p
    /\ accepts n p = true
    /\ (forall k, k < n ->
                  exists q, page_at world_scenario_A k = Some q
                            /\ accepts k q = false)
    /\ trace (search_torrents_api world_scenario_A "ubuntu"
                (Py.Finite 5368709120))
       = Post AuthLogin :: Post SearchStart :: polling n
    /\ shape (Some (IdInt 7)) "ubuntu" scenario_A (Py.Finite 5368709120)
       = shape search_id "ubuntu" (page_results p) (Py.Finite 5368709120).
Proof.
  apply (success_comes_from_accepting_attempt world_scenario_A "ubuntu"
           (Py.Finite 5368709120)).
  - reflexivity.
  - reflexivity.
Defined.

(** ** Delays *)

Lemma poll_trace_sleeps t :
  poll_trace t ->
  count is_sleep t = count (is_post SearchResults) t - 1
  /\ Forall (fun e => match e with
                      | Sleep s => s = SEARCH_RETRY_DELAY_SECONDS
                      | Post _ => True
                      end) t.
Proof.
  unfold count.
  induction 1 as [| | t Ht [IH1 IH2]];
    cbn [filter is_sleep is_post List.length].
  - split; [reflexivity | constructor].
  - split; [reflexivity | repeat constructor].
  - cbn [filter is_sleep is_post List.length] in IH1.
    split; [lia |]. constructor; [exact I |]. constructor; [reflexivity |].
    exact IH2.
Qed.

(** In every call the number of delays is the number of polls less one (0
    when no poll is made), so at most nine, and each delay lasts
    [SEARCH_RETRY_DELAY_SECONDS]: a call waits at most nine seconds between
    its polls. *)
Theorem one_delay_less_than_polls w pattern max_size_bytes :
  let t := trace (search_torrents_api w pattern max_size_bytes) in
  count is_sleep t = count (is_post SearchResults) t - 1
  /\ count is_sleep t <= SEARCH_MAX_RETRIES - 1
  /\ Forall (fun e => match e with
                      | Sleep s => s = SEARCH_RETRY_DELAY_SECONDS
                      | Post _ => True
                      end) t.
Proof.
  destruct (search_torrents_api_cases w pattern max_size_bytes)
    as [(msg & Hl & E) | [(code & c & Hl & E) | [(code & c & d & Hl & Herr & E)
       | (search_id & Hl & Hs)]]].
  1-3: rewrite E; unfold trace; cbn; repeat split; try lia;
    repeat constructor.
  rewrite (search_torrents_api_started _ _ _ _ Hl Hs). unfold trace.
  cbn [fst].
  destruct (poll_loop_trace w SEARCH_MAX_RETRIES 0 initial_state eq_refl)
    as (Ht & Hc & _).
  destruct (poll_trace_sleeps _ Ht) as (Hsl & Hall).
  unfold count in *. cbn [filter is_sleep is_post List.length].
  repeat split; [lia | lia |]. now repeat constructor.
Qed.

(** ** The shaping stage, further *)

Lemma In_firstn_In {A} (x : A) n l : In x (firstn n l) -> In x l.
Proof.
  intros H. rewrite <- (firstn_skipn n l). apply in_or_app. now left.
Qed.

(** Every result of the envelope is a row of the page whose size is within
    the ceiling. *)
Theorem results_pass_the_filter R S r :
  In r (top_10 (sorted_torrents (filtered_torrents R S))) ->
  In r R /\ Py.int_le_float (get_fileSize r) S = true.
Proof.
  intros H. apply In_firstn_In in H.
  apply (Permutation_in _ (sorted_reverse_perm get_nbSeeders _)) in H.
  unfold filtered_torrents in H. now apply filter_In in H.
Qed.

Lemma results_pass_the_filter_witness :
  In (row (2 * GiB) 1) scenario_A
  /\ Py.int_le_float (get_fileSize (row (2 * GiB) 1))
       (Py.Finite 5368709120) = true.
Proof.
  apply (results_pass_the_filter scenario_A (Py.Finite 5368709120)).
  right. left. reflexivity.
Defined.

Lemma StronglySorted_app_Forall {A} (R : A -> A -> Prop) l1 l2 :
  StronglySorted R (l1 ++ l2) -> Forall (fun x => Forall (R x) l2) l1.
Proof.
  induction l1 as [| x l1 IH]; cbn [app]; intros H; [constructor |].
  apply StronglySorted_inv in H as [H Hx]. constructor.
  - apply Forall_app in Hx. tauto.
  - now apply IH.
Qed.

(** The rows kept are the ones with most seeders: the filtered rows are
    the results together with the rows dropped by the cut to ten, the
    results are ten (all the filtered rows when these are fewer), and no
    dropped row has more seeders, by its field [nbSeeders] (0 when
    absent), than a result. *)
Theorem kept_outrank_dropped R S :
  exists dropped,
    Permutation (filtered_torrents R S)
      (top_10 (sorted_torrents (filtered_torrents R S)) ++ dropped)
    /\ List.length (top_10 (sorted_torrents (filtered_torrents R S)))
       = Nat.min 10 (List.length (filtered_torrents R S))
    /\ Forall
         (fun x =>
            Forall (fun y => (seeders_field y <= seeders_field x)%Z) dropped)
         (top_10 (sorted_torrents (filtered_torrents R S))).
Proof.
  exists (skipn 10 (sorted_torrents (filtered_torrents R S))).
  unfold top_10. split; [| split].
  - rewrite firstn_skipn. symmetry. apply sorted_reverse_perm.
  - rewrite length_firstn. f_equal. unfold sorted_torrents.
    apply Permutation_length, sorted_reverse_perm.
  - apply (StronglySorted_app_Forall (desc seeders_field)).
    rewrite firstn_skipn. apply desc_field_sorted, sorted_reverse_sorted.
Qed.

(** When at most ten rows pass the filter, none is dropped: the results
    are the filtered rows, reordered. *)
Theorem nothing_dropped_when_few R S :
  List.length (filtered_torrents R S) <= 10 ->
  Permutation (top_10 (sorted_torrents (filtered_torrents R S)))
    (filtered_torrents R S).
Proof.
  intros H. unfold top_10. rewrite firstn_all2.
  - apply sorted_reverse_perm.
  - unfold sorted_torrents.
    now rewrite (Permutation_length (sorted_reverse_perm get_nbSeeders _)).
Qed.

Lemma nothing_dropped_when_few_witness :
  Permutation
    (top_10 (sorted_torrents
               (filtered_torrents scenario_A (Py.Finite 5368709120))))
    (filtered_torrents scenario_A (Py.Finite 5368709120)).
Proof.
  apply nothing_dropped_when_few. cbn. lia.
Defined.

Lemma filter_all {A} (p : A -> bool) l :
  (forall x, In x l -> p x = true) -> filter p l = l.
Proof.
  induction l as [| x l IH]; intros H; [reflexivity |]. cbn [filter].
  rewrite (H x (or_introl eq_refl)). f_equal. apply IH. intros y Hy.
  apply H. now right.
Qed.

(** Shaping is idempotent: filtering, ranking and cutting the results of
    an envelope again, under the same ceiling, gives the same results. *)
Theorem shaping_idempotent R S :
  let results := top_10 (sorted_torrents (filtered_torrents R S)) in
  top_10 (sorted_torrents (filtered_torrents results S)) = results.
Proof.
  intros results.
  assert (Hf : filtered_torrents results S = results).
  { apply filter_all. intros x Hx. apply In_firstn_In in Hx.
    apply (Permutation_in _ (sorted_reverse_perm get_nbSeeders _)) in Hx.
    unfold filtered_torrents in Hx. now apply filter_In in Hx. }
  rewrite Hf.
  assert (Hs : sorted_torrents results = results).
  { symmetry. apply sorted_reverse_unique; [| reflexivity].
    apply firstn_sorted, sorted_reverse_sorted. }
  rewrite Hs. unfold top_10. apply firstn_all2.
  subst results. unfold top_10. rewrite length_firstn. lia.
Qed.

(** Raising the ceiling never loses a row: every row that passes under a
    ceiling passes under a higher one, and [filtered_results] does not
    decrease. *)
Theorem raising_the_ceiling_keeps_rows R (q q' : Q) :
  (q <= q')%Q ->
  incl (filtered_torrents R (Py.Finite q)) (filtered_torrents R (Py.Finite q'))
  /\ List.length (filtered_torrents R (Py.Finite q))
     <= List.length (filtered_torrents R (Py.Finite q')).
Proof.
  intros Hq.
  assert (Hle : forall r,
             Py.int_le_float (get_fileSize r) (Py.Finite q) = true ->
             Py.int_le_float (get_fileSize r) (Py.Finite q') = true).
  { intros r H. cbn [Py.int_le_float] in *. apply Qle_bool_iff in H.
    apply Qle_bool_iff. eapply Qle_trans; eauto. }
  split.
  - intros r Hr. unfold filtered_torrents in *. apply filter_In in Hr.
    apply filter_In. split; [tauto |]. apply Hle. tauto.
  - unfold filtered_torrents. induction R as [| r R IH]; [reflexivity |].
    cbn [filter].
    destruct (Py.int_le_float (get_fileSize r) (Py.Finite q)) eqn:E.
    + rewrite (Hle r E). cbn [List.length]. lia.
    + destruct (Py.int_le_float (get_fileSize r) (Py.Finite q'));
        cbn [List.length]; lia.
Qed.

Lemma raising_the_ceiling_keeps_rows_witness :
  incl (filtered_torrents scenario_A (Py.Finite 5368709120))
       (filtered_torrents scenario_A (Py.Finite 21474836480))
  /\ List.length (filtered_torrents scenario_A (Py.Finite 5368709120))
     <= List.length (filtered_torrents scenario_A (Py.Finite 21474836480)).
Proof.
  apply raising_the_ceiling_keeps_rows. unfold Qle. cbn. lia.
Defined.

(** * The commands *)

(** ** The family of commands with one request *)

Ltac unfold_command :=
  unfold Cmd.run, Cmd.delete_torrent_api, Cmd.pause_torrent_api,
    Cmd.resume_torrent_api, Cmd.set_global_download_limit_api,
    Cmd.set_global_upload_limit_api, Cmd.set_file_priority_api,
    Cmd.set_torrent_download_limit_api, Cmd.set_torrent_upload_limit_api,
    Cmd.add_trackers_to_torrent_api, Cmd.add_torrent_tags_api,
    Cmd.login_to_qbittorrent, Cmd.send, Cmd.bind, Cmd.ret, Cmd.return_,
    Cmd.try_except, Cmd.print, Cmd.json, Cmd.trace, Cmd.outcome_of,
    Cmd.requests.

(** Case analysis on every test a command makes on the answers. *)
Ltac split_tests :=
  repeat match goal with
    | |- context [(?c =? 200)%Z] =>
        let E := fresh "E" in destruct (c =? 200)%Z eqn:E
    | |- context [String.eqb ?h "all"] => destruct (String.eqb h "all")
    | |- context [Cmd.json_str ?b] =>
        let E := fresh "E" in destruct (Cmd.json_str b) eqn:E
    end;
  cbn [fst snd negb truthy_cookies app].

(** The login of this part is the login of the search: same result, one
    request. *)
Lemma login_agrees w :
  match login_to_qbittorrent w, Cmd.login_to_qbittorrent (login_reply w) with
  | (t, Value a), (t', Cmd.Value a') =>
      a = a' /\ t = [Post AuthLogin] /\ t' = [Cmd.Call Cmd.AuthLogin]
  | (t, Raise m), (t', Cmd.Raise m') =>
      m = m' /\ t = [Post AuthLogin] /\ t' = [Cmd.Call Cmd.AuthLogin]
  | _, _ => False
  end.
Proof.
  unfold login_to_qbittorrent, Cmd.login_to_qbittorrent, post, Cmd.send,
    bind, Cmd.bind, ret, Cmd.ret.
  destruct (login_reply w) as [m | code c]; cbn [fst snd]; [now repeat split |].
  destruct (code =? 200)%Z; now repeat split.
Qed.

(** The boundary of every command: when the login request cannot be sent
    the exception leaves the function after that one request; once the
    login is answered, whatever the command request meets, the function
    returns a message. *)
Theorem command_boundary (c : Cmd.command) (s : Cmd.server Cmd.body) :
  match Cmd.login_reply s with
  | TransportError msg =>
      Cmd.run c s = ([Cmd.Call Cmd.AuthLogin], Cmd.Raise msg)
  | Response _ _ =>
      exists message, Cmd.outcome_of (Cmd.run c s) = Cmd.Returned message
  end.
Proof.
  destruct (Cmd.login_reply s) as [m | code cs] eqn:Hl.
  - destruct c; unfold_command; rewrite Hl; reflexivity.
  - destruct c; unfold_command; rewrite Hl; cbn [fst snd];
      destruct (code =? 200)%Z; cbn [fst snd negb truthy_cookies];
      try (eexists; reflexivity);
      destruct cs as [| c0 cs]; cbn [negb];
      try (eexists; reflexivity);
      destruct (Cmd.answer s) as [m | code' b]; cbn [fst snd];
      try (eexists; reflexivity);
      split_tests; eexists; reflexivity.
Qed.

(** A login answered with a status code other than 200, or with 200 and no
    cookie, makes every command return the login failure message after
    that one request: the command itself is not sent. *)
Theorem rejected_login_stops_command (c : Cmd.command) (s : Cmd.server Cmd.body)
    code cs :
  Cmd.login_reply s = Response code cs ->
  code <> 200%Z \/ cs = [] ->
  Cmd.run c s = ([Cmd.Call Cmd.AuthLogin], Cmd.Return Cmd.login_failed).
Proof.
  intros Hl H.
  assert (Hf : (if (code =? 200)%Z then truthy_cookies (Some cs) else false)
               = false).
  { destruct (code =? 200)%Z eqn:E; [| reflexivity].
    apply Z.eqb_eq in E.
    destruct H as [H | ->]; [contradiction | reflexivity]. }
  destruct c; unfold_command; rewrite Hl; cbn [fst snd];
    destruct (code =? 200)%Z; cbn [fst snd negb truthy_cookies] in *;
    try reflexivity; rewrite Hf; reflexivity.
Qed.

Lemma rejected_login_stops_command_witness :
  Cmd.run (Cmd.Pause "all")
    {| Cmd.login_reply := Response 403 []; Cmd.answer := TransportError "" |}
  = ([Cmd.Call Cmd.AuthLogin], Cmd.Return Cmd.login_failed).
Proof.
  apply (rejected_login_stops_command _ _ 403 []).
  - reflexivity.
  - left. discriminate.
Defined.

(** After an accepted login every command sends exactly one request, to
    its own endpoint, whatever the answer. *)
Theorem command_sends_one_request (c : Cmd.command)
    (s : Cmd.server Cmd.body) cs :
  Cmd.login_reply s = Response 200 cs -> cs <> [] ->
  filter Cmd.is_call (Cmd.trace (Cmd.run c s))
  = [Cmd.Call Cmd.AuthLogin; Cmd.Call (Cmd.endpoint_of c)].
Proof.
  intros Hl Hc. destruct cs as [| c0 cs]; [congruence |].
  destruct c; unfold_command; rewrite Hl; cbn [fst snd Z.eqb Pos.eqb negb
    truthy_cookies];
    destruct (Cmd.answer s) as [m | code' b]; cbn [fst snd];
    try reflexivity; split_tests; reflexivity.
Qed.

Lemma command_sends_one_request_witness :
  filter Cmd.is_call
    (Cmd.trace
       (Cmd.run (Cmd.Delete "abc" true)
          {| Cmd.login_reply := Response 200 [("SID", "x")];
             Cmd.answer :=
               Response 404 {| Cmd.text := "Not Found";
                               Cmd.json_str := Malformed "Expecting value" |}
          |}))
  = [Cmd.Call Cmd.AuthLogin; Cmd.Call Cmd.TorrentsDelete].
Proof.
  apply (command_sends_one_request (Cmd.Delete "abc" true) _ [("SID", "x")]).
  - reflexivity.
  - discriminate.
Defined.

(** When the request of a command cannot be sent, the command returns
    ["Error: "] followed by the text of the exception. *)
Theorem command_transport_failure_reported (c : Cmd.command)
    (s : Cmd.server Cmd.body) cs msg :
  Cmd.login_reply s = Response 200 cs -> cs <> [] ->
  Cmd.answer s = TransportError msg ->
  Cmd.run c s =
    ([Cmd.Call Cmd.AuthLogin; Cmd.Call (Cmd.endpoint_of c)],
     Cmd.Return (String.append "Error: " msg)).
Proof.
  intros Hl Hc Ha. destruct cs as [| c0 cs]; [congruence |].
  destruct c; unfold_command; rewrite Hl, Ha; reflexivity.
Qed.

Lemma command_transport_failure_reported_witness :
  Cmd.run (Cmd.SetGlobalUploadLimit 1024)
    {| Cmd.login_reply := Response 200 [("SID", "x")];
       Cmd.answer := TransportError "timed out" |}
  = ([Cmd.Call Cmd.AuthLogin; Cmd.Call Cmd.TransferSetUploadLimit],
     Cmd.Return "Error: timed out").
Proof.
  apply (command_transport_failure_reported (Cmd.SetGlobalUploadLimit 1024) _
           [("SID", "x")] "timed out").
  - reflexivity.
  - discriminate.
  - reflexivity.
Defined.

(** A delete answered with a status code other than 200 prints two lines
    and returns a failure message that names the status code and carries
    the body: the parsed body when it is JSON, its raw text when reading
    it raises. *)
Theorem delete_failure_body_fallback (s : Cmd.server Cmd.body) hashes
    delete_files cs code b :
  Cmd.login_reply s = Response 200 cs -> cs <> [] ->
  Cmd.answer s = Response code b ->
  code <> 200%Z ->
  Cmd.delete_torrent_api s hashes delete_files =
    ([Cmd.Call Cmd.AuthLogin; Cmd.Call Cmd.TorrentsDelete;
      Cmd.Print (String.append "Failed to delete torrent, HTTP status code: "
                   (Py.str_int code));
      Cmd.Print (String.append "Response body: " (Cmd.text b))],
     Cmd.Return
       (String.append "Failed to delete torrent, HTTP status code: "
          (String.append (Py.str_int code)
             (String.append ", response body: "
                match Cmd.json_str b with
                | Decoded parsed => parsed
                | Malformed _ => Cmd.text b
                end)))).
Proof.
  intros Hl Hc Ha Hcode. destruct cs as [| c0 cs]; [congruence |].
  apply Z.eqb_neq in Hcode.
  unfold_command. rewrite Hl, Ha. cbn [fst snd Z.eqb Pos.eqb negb
    truthy_cookies]. rewrite Hcode.
  destruct (Cmd.json_str b); reflexivity.
Qed.

Lemma delete_failure_body_fallback_witness :
  Cmd.delete_torrent_api
    {| Cmd.login_reply := Response 200 [("SID", "x")];
       Cmd.answer :=
         Response 404 {| Cmd.text := "Not Found";
                         Cmd.json_str := Malformed "Expecting value" |} |}
    "abc" true =
    ([Cmd.Call Cmd.AuthLogin; Cmd.Call Cmd.TorrentsDelete;
      Cmd.Print "Failed to delete torrent, HTTP status code: 404";
      Cmd.Print "Response body: Not Found"],
     Cmd.Return
       (String.append "Failed to delete torrent, HTTP status code: 404, "
          "response body: Not Found")).
Proof.
  apply (delete_failure_body_fallback _ "abc" true [("SID", "x")] 404
           {| Cmd.text := "Not Found";
              Cmd.json_str := Malformed "Expecting value" |}).
  - reflexivity.
  - discriminate.
  - reflexivity.
  - discriminate.
Defined.

(** ** get_torrent_trackers_urls *)

Lemma tracker_loop_all_urls trackers :
  Forall (fun t => Cmd.url t <> None) trackers ->
  forall acc,
    Cmd.tracker_loop trackers acc
    = ([], Cmd.Value (acc ++ Cmd.ordinary_urls trackers)).
Proof.
  unfold Cmd.ordinary_urls.
  induction 1 as [| t trackers Ht _ IH]; intros acc; cbn [Cmd.tracker_loop].
  - cbn. now rewrite app_nil_r.
  - destruct (Cmd.url t) as [u |] eqn:Hu; [| congruence].
    cbn [flat_map app filter]. rewrite Hu. cbn [app filter].
    destruct (negb (String.prefix "** [" u)); rewrite IH.
    + now rewrite <- app_assoc.
    + reflexivity.
Qed.

Lemma tracker_loop_missing_url trackers :
  Exists (fun t => Cmd.url t = None) trackers ->
  forall acc,
    Cmd.tracker_loop trackers acc = ([], Cmd.Raise Cmd.no_startswith).
Proof.
  induction trackers as [| t trackers IH]; intros H acc;
    [inversion H |].
  cbn [Cmd.tracker_loop]. destruct (Cmd.url t) as [u |] eqn:Hu;
    [| reflexivity].
  assert (Hrest : Exists (fun t => Cmd.url t = None) trackers).
  { inversion H as [? ? H0 | ? ? H0]; subst; [congruence | exact H0]. }
  destruct (negb (String.prefix "** [" u)); now apply IH.
Qed.

(** When the tracker list is read and every entry has a url, the function
    returns the urls that do not start with ["** ["], in the order of the
    list, joined by commas; a message of its own when the list is empty,
    another when every url is a special entry. *)
Theorem trackers_joined (s : Cmd.server (decoded (list Cmd.tracker))) hash cs
    trackers :
  Cmd.login_reply s = Response 200 cs -> cs <> [] ->
  Cmd.answer s = Response 200 (Decoded trackers) ->
  Forall (fun t => Cmd.url t <> None) trackers ->
  Cmd.get_torrent_trackers_urls s hash =
    ([Cmd.Call Cmd.AuthLogin; Cmd.Call Cmd.TorrentsTrackers],
     Cmd.Return
       match trackers, Cmd.ordinary_urls trackers with
       | [], _ => "This torrent has no trackers"
       | _ :: _, [] => "This torrent has no valid tracker URLs"
       | _ :: _, urls => String.concat "," urls
       end).
Proof.
  intros Hl Hc Ha Hall. destruct cs as [| c0 cs]; [congruence |].
  unfold Cmd.get_torrent_trackers_urls, Cmd.login_to_qbittorrent.
  rewrite Hl, Ha.
  unfold Cmd.send, Cmd.bind, Cmd.ret, Cmd.try_except, Cmd.return_, Cmd.json.
  cbn [fst snd Z.eqb Pos.eqb negb truthy_cookies app].
  destruct trackers as [| t trackers]; [reflexivity |].
  cbn [truthy_list negb]. rewrite (tracker_loop_all_urls _ Hall []).
  cbn [app]. destruct (Cmd.ordinary_urls (t :: trackers)); reflexivity.
Qed.

Lemma trackers_joined_witness :
  Cmd.get_torrent_trackers_urls
    {| Cmd.login_reply := Response 200 [("SID", "x")];
       Cmd.answer := Response 200 (Decoded Cmd.sample_trackers) |}
    "8c21" =
    ([Cmd.Call Cmd.AuthLogin; Cmd.Call Cmd.TorrentsTrackers],
     Cmd.Return "udp://a:1/announce,http://b/announce").
Proof.
  apply (trackers_joined
           {| Cmd.login_reply := Response 200 [("SID", "x")];
              Cmd.answer := Response 200 (Decoded Cmd.sample_trackers) |}
           "8c21" [("SID", "x")] Cmd.sample_trackers).
  - reflexivity.
  - discriminate.
  - reflexivity.
  - repeat constructor; discriminate.
Defined.

(** One entry without a url sinks the whole list: whatever the other
    entries, the function returns the text of the exception that
    [startswith] on [None] raises. *)
Theorem tracker_without_url_sinks_the_list
    (s : Cmd.server (decoded (list Cmd.tracker))) hash cs trackers :
  Cmd.login_reply s = Response 200 cs -> cs <> [] ->
  Cmd.answer s = Response 200 (Decoded trackers) ->
  Exists (fun t => Cmd.url t = None) trackers ->
  Cmd.get_torrent_trackers_urls s hash =
    ([Cmd.Call Cmd.AuthLogin; Cmd.Call Cmd.TorrentsTrackers],
     Cmd.Return (String.append "Error: " Cmd.no_startswith)).
Proof.
  intros Hl Hc Ha Hex. destruct cs as [| c0 cs]; [congruence |].
  unfold Cmd.get_torrent_trackers_urls, Cmd.login_to_qbittorrent.
  rewrite Hl, Ha.
  unfold Cmd.send, Cmd.bind, Cmd.ret, Cmd.try_except, Cmd.return_, Cmd.json.
  cbn [fst snd Z.eqb Pos.eqb negb truthy_cookies app].
  destruct trackers as [| t trackers]; [inversion Hex |].
  cbn [truthy_list negb]. rewrite (tracker_loop_missing_url _ Hex []).
  reflexivity.
Qed.

Lemma tracker_without_url_sinks_the_list_witness :
  Cmd.get_torrent_trackers_urls
    {| Cmd.login_reply := Response 200 [("SID", "x")];
       Cmd.answer := Response 200 (Decoded Cmd.broken_trackers) |}
    "8c21" =
    ([Cmd.Call Cmd.AuthLogin; Cmd.Call Cmd.TorrentsTrackers],
     Cmd.Return "Error: 'NoneType' object has no attribute 'startswith'").
Proof.
  apply (tracker_without_url_sinks_the_list
           {| Cmd.login_reply := Response 200 [("SID", "x")];
              Cmd.answer := Response 200 (Decoded Cmd.broken_trackers) |}
           "8c21" [("SID", "x")] Cmd.broken_trackers).
  - reflexivity.
  - discriminate.
  - reflexivity.
  - right. left. reflexivity.
Defined.

(** ** add_torrent_api *)

(** The loop when every upload it makes is answered. *)
Lemma add_loop_answered env :
  forall file_paths i results,
    (forall j, i <= j < i + List.length file_paths ->
               exists code b, Cmd.upload_reply env j = Response code b) ->
    Cmd.add_loop env i file_paths results
    = (Cmd.uploads_of env file_paths,
       Cmd.Value (results ++ Cmd.lines_from env i file_paths)).
Proof.
  unfold Cmd.uploads_of.
  induction file_paths as [| p rest IH]; intros i results H.
  - cbn. now rewrite app_nil_r.
  - cbn [Cmd.add_loop Cmd.lines_from filter]. unfold Cmd.line_at, Cmd.readable.
    cbn [List.length] in H.
    assert (Hrest : forall j, S i <= j < S i + List.length rest ->
                      exists code b, Cmd.upload_reply env j = Response code b)
      by (intros j Hj; apply H; lia).
    destruct (Cmd.file_at env p) as [| e | content].
    + rewrite (IH _ _ Hrest). now rewrite <- app_assoc.
    + rewrite (IH _ _ Hrest). now rewrite <- app_assoc.
    + destruct (H i) as (code & b & Hi); [lia |]. rewrite Hi.
      unfold Cmd.send, Cmd.bind. cbn [fst snd]. rewrite (IH _ _ Hrest).
      cbn [map app]. now rewrite <- app_assoc.
Qed.

(** The loop when an upload cannot be sent. *)
Lemma add_loop_unreachable env path content msg post :
  Cmd.file_at env path = Cmd.Readable content ->
  forall pre i results,
    Cmd.upload_reply env (i + List.length pre) = TransportError msg ->
    (forall j, i <= j < i + List.length pre ->
               exists code b, Cmd.upload_reply env j = Response code b) ->
    Cmd.add_loop env i (pre ++ path :: post) results
    = (Cmd.uploads_of env pre ++ [Cmd.Upload (Cmd.basename env path)],
       Cmd.Raise msg).
Proof.
  intros Hpath. unfold Cmd.uploads_of.
  induction pre as [| p pre IH]; intros i results Hk H.
  - cbn [app List.length] in *. rewrite Nat.add_0_r in Hk.
    cbn [Cmd.add_loop]. rewrite Hpath, Hk. reflexivity.
  - cbn [app List.length Cmd.add_loop filter] in *. unfold Cmd.readable.
    assert (Hk' : Cmd.upload_reply env (S i + List.length pre)
                  = TransportError msg)
      by (rewrite <- Hk; f_equal; lia).
    assert (Hrest : forall j, S i <= j < S i + List.length pre ->
                      exists code b, Cmd.upload_reply env j = Response code b)
      by (intros j Hj; apply H; lia).
    destruct (Cmd.file_at env p) as [| e | c].
    + now rewrite (IH _ _ Hk' Hrest).
    + now rewrite (IH _ _ Hk' Hrest).
    + destruct (H i) as (code & b & Hi); [lia |]. rewrite Hi.
      unfold Cmd.send, Cmd.bind. cbn [fst snd].
      now rewrite (IH _ _ Hk' Hrest).
Qed.

(** The function around its loop. *)
Lemma add_torrent_api_loop login env query cs file_paths :
  Cmd.log_error env = None ->
  login = Response 200 cs -> cs <> [] ->
  Cmd.query_gives env query file_paths ->
  file_paths <> [] ->
  Cmd.add_torrent_api login env query =
    (log_line query :: Cmd.Call Cmd.AuthLogin
       :: fst (Cmd.add_loop env 0 file_paths []),
     match snd (Cmd.add_loop env 0 file_paths []) with
     | Cmd.Value results => Cmd.Return (String.concat Cmd.newline results)
     | Cmd.Return s => Cmd.Return s
     | Cmd.Raise m => Cmd.Return (String.append "Error: " m)
     end).
Proof.
  intros Hlog -> Hc Hq Hne. destruct cs as [| c0 cs]; [congruence |].
  destruct file_paths as [| p rest] eqn:Hfp; [congruence |].
  rewrite <- Hfp in *.
  assert (Ht : truthy_list file_paths = true) by now rewrite Hfp.
  unfold Cmd.add_torrent_api, Cmd.login_to_qbittorrent. rewrite Hlog.
  destruct (Cmd.add_loop env 0 file_paths []) as [t r] eqn:E.
  destruct Hq as [(Hq & Hs) | [Hq | Hq]]; rewrite Hq; rewrite <- ?Hs;
    unfold Cmd.send, Cmd.bind, Cmd.ret, Cmd.try_except, Cmd.return_;
    cbn [fst snd Z.eqb Pos.eqb negb truthy_cookies app];
    rewrite Ht; cbn [negb]; rewrite E; destruct r; cbn [app];
    rewrite ?app_nil_r; reflexivity.
Qed.

(** One line for every path: when the query gives a non-empty list of
    paths and every upload is answered, the function returns one line for
    each path, in the order of the list, joined by newlines, and it has
    uploaded the files that exist and could be read, those only, in that
    order. *)
Theorem add_reports_every_path login env query cs file_paths :
  Cmd.log_error env = None ->
  login = Response 200 cs -> cs <> [] ->
  Cmd.query_gives env query file_paths ->
  file_paths <> [] ->
  (forall j, j < List.length file_paths ->
             exists code b, Cmd.upload_reply env j = Response code b) ->
  Cmd.add_torrent_api login env query =
    (log_line query :: Cmd.Call Cmd.AuthLogin
       :: Cmd.uploads_of env file_paths,
     Cmd.Return (String.concat Cmd.newline (Cmd.lines_from env 0 file_paths)))
  /\ List.length (Cmd.lines_from env 0 file_paths) = List.length file_paths.
Proof.
  intros Hlog Hl Hc Hq Hne H. split.
  - rewrite (add_torrent_api_loop _ _ _ _ _ Hlog Hl Hc Hq Hne).
    rewrite add_loop_answered; [reflexivity |].
    intros j Hj. apply H. lia.
  - clear. generalize 0 as i.
    induction file_paths as [| p rest IH]; intros i; cbn; [reflexivity |].
    now rewrite IH.
Qed.

Lemma add_reports_every_path_witness :
  Cmd.add_torrent_api (Response 200 [("SID", "x")]) Cmd.sample_setting
    "/t/a.torrent" =
    ([log_line "/t/a.torrent"; Cmd.Call Cmd.AuthLogin;
      Cmd.Upload "a.torrent"],
     Cmd.Return "Successfully added torrent file: a.torrent")
  /\ List.length (Cmd.lines_from Cmd.sample_setting 0 ["/t/a.torrent"]) = 1.
Proof.
  apply (add_reports_every_path (Response 200 [("SID", "x")])
           Cmd.sample_setting "/t/a.torrent" [("SID", "x")]
           ["/t/a.torrent"]).
  - reflexivity.
  - reflexivity.
  - discriminate.
  - left. split; reflexivity.
  - discriminate.
  - intros j Hj. cbn in Hj. destruct j as [| j]; [| lia].
    eexists _, _. reflexivity.
Defined.

(** An upload that cannot be sent discards the report: the function
    returns the text of the exception alone, although the files before it
    were uploaded and answered. *)
Theorem upload_failure_discards_report login env query cs pre path post
    content msg :
  Cmd.log_error env = None ->
  login = Response 200 cs -> cs <> [] ->
  Cmd.query_gives env query (pre ++ path :: post) ->
  Cmd.file_at env path = Cmd.Readable content ->
  Cmd.upload_reply env (List.length pre) = TransportError msg ->
  (forall j, j < List.length pre ->
             exists code b, Cmd.upload_reply env j = Response code b) ->
  Cmd.add_torrent_api login env query =
    (log_line query :: Cmd.Call Cmd.AuthLogin
       :: Cmd.uploads_of env pre ++ [Cmd.Upload (Cmd.basename env path)],
     Cmd.Return (String.append "Error: " msg)).
Proof.
  intros Hlog Hl Hc Hq Hpath Hk H.
  rewrite (add_torrent_api_loop _ _ _ _ _ Hlog Hl Hc Hq);
    [| destruct pre; discriminate].
  rewrite (add_loop_unreachable env path content msg post Hpath pre 0 []);
    [reflexivity | exact Hk |].
  intros j Hj. apply H. lia.
Qed.

Lemma upload_failure_discards_report_witness :
  Cmd.add_torrent_api (Response 200 [("SID", "x")]) Cmd.sample_setting
    "twice" =
    ([log_line "twice"; Cmd.Call Cmd.AuthLogin;
      Cmd.Upload "a.torrent"; Cmd.Upload "a.torrent"],
     Cmd.Return "Error: timed out").
Proof.
  apply (upload_failure_discards_report (Response 200 [("SID", "x")])
           Cmd.sample_setting "twice" [("SID", "x")]
           ["/t/a.torrent"] "/t/a.torrent" [] "d8:announce" "timed out").
  - reflexivity.
  - reflexivity.
  - discriminate.
  - right. left. reflexivity.
  - reflexivity.
  - reflexivity.
  - intros j Hj. cbn in Hj. destruct j as [| j]; [| lia].
    eexists _, _. reflexivity.
Defined.

(** The boundary of [add_torrent_api]: the call raises when the debug log
    cannot be opened, before any request, and when the login request
    cannot be sent; in every other case it returns a message. *)
Theorem add_boundary login env query :
  match Cmd.log_error env, login with
  | Some e, _ => Cmd.add_torrent_api login env query = ([], Cmd.Raise e)
  | None, TransportError msg =>
      Cmd.add_torrent_api login env query
      = ([log_line query; Cmd.Call Cmd.AuthLogin], Cmd.Raise msg)
  | None, Response _ _ =>
      exists message,
        Cmd.outcome_of (Cmd.add_torrent_api login env query)
        = Cmd.Returned message
  end.
Proof.
  unfold Cmd.add_torrent_api, Cmd.login_to_qbittorrent.
  destruct (Cmd.log_error env) as [e |]; [reflexivity |].
  destruct login as [msg | code cs]; [reflexivity |].
  unfold Cmd.send, Cmd.bind, Cmd.ret, Cmd.try_except, Cmd.return_,
    Cmd.outcome_of.
  cbn [fst snd].
  destruct (code =? 200)%Z; cbn [fst snd negb truthy_cookies];
    [| eexists; reflexivity].
  destruct cs as [| c0 cs]; cbn [negb]; [eexists; reflexivity |].
  destruct (Cmd.json_loads env query) as [| data | [paths |] |];
    cbn [fst snd]; try (eexists; reflexivity).
  - destruct (Cmd.add_loop env 0 [Cmd.strip env query] []) as [t [v | r | m]];
      eexists; reflexivity.
  - destruct (truthy_list data); cbn [negb]; [| eexists; reflexivity].
    destruct (Cmd.add_loop env 0 data []) as [t [v | r | m]];
      eexists; reflexivity.
  - destruct (truthy_list paths); cbn [negb]; [| eexists; reflexivity].
    destruct (Cmd.add_loop env 0 paths []) as [t [v | r | m]];
      eexists; reflexivity.
Qed.

(** A query that gives no path costs a login and nothing else: an empty
    JSON list, under ["file_paths"] or alone, is answered by the message
    that no path was provided; a JSON value that is neither a list nor a
    dictionary with ["file_paths"] by the message that the format is not
    recognized. *)
Theorem query_without_paths_uploads_nothing login env query cs :
  Cmd.log_error env = None ->
  login = Response 200 cs -> cs <> [] ->
  match Cmd.json_loads env query with
  | Cmd.JSONList [] | Cmd.JSONDict (Some []) =>
      Cmd.add_torrent_api login env query =
        ([log_line query; Cmd.Call Cmd.AuthLogin],
         Cmd.Return "Error: No torrent file path provided")
  | Cmd.JSONDict None | Cmd.JSONOther =>
      Cmd.add_torrent_api login env query =
        ([log_line query; Cmd.Call Cmd.AuthLogin],
         Cmd.Return
           "Error: JSON format not recognized, please provide required format")
  | _ => True
  end.
Proof.
  intros Hlog -> Hc. destruct cs as [| c0 cs]; [congruence |].
  unfold Cmd.add_torrent_api, Cmd.login_to_qbittorrent. rewrite Hlog.
  destruct (Cmd.json_loads env query) as [| [| p data] | [[| p paths] |] |];
    try exact I; reflexivity.
Qed.

Lemma query_without_paths_uploads_nothing_witness :
  Cmd.add_torrent_api (Response 200 [("SID", "x")]) Cmd.sample_setting "[]" =
    ([log_line "[]"; Cmd.Call Cmd.AuthLogin],
     Cmd.Return "Error: No torrent file path provided").
Proof.
  apply (query_without_paths_uploads_nothing (Response 200 [("SID", "x")])
           Cmd.sample_setting "[]" [("SID", "x")]).
  - reflexivity.
  - reflexivity.
  - discriminate.
Defined.

(** The report of a list with a torrent file, a missing file and a
    directory, the second upload being out of reach only for a file. *)
Example add_three_paths :
  Cmd.add_torrent_api (Response 200 [("SID", "x")]) Cmd.sample_setting
    "list" =
    ([log_line "list"; Cmd.Call Cmd.AuthLogin; Cmd.Upload "a.torrent"],
     Cmd.Return
       (String.concat Cmd.newline
          ["Successfully added torrent file: a.torrent";
           "File does not exist: /t/missing";
           "Error reading file /t/dir: Is a directory"])).
Proof. reflexivity. Qed.
